(** * Configuration validator: a shallow embedding of [scripts/validate-devcontainers.py]

    The development follows the script function by function.  Python values
    that come out of [json.load] are the inductive type [json]; a Python
    [dict] is an association list in insertion order; a Python [str] is a
    [string] whose characters stand for code points (the case conversion
    [upper] and the white-space test cover the ASCII range).  A call that can
    raise returns a [result]; the driver, which reads files, prints and
    exits, runs in a small state-and-exception monad over the process state
    (a clock of environment observations and the lines printed so far). *)

From Stdlib Require Import List String Ascii ZArith Lia Bool Arith PeanoNat Floats.
From Stdlib Require Import Numbers.DecimalString Sorting.Sorted.
From Stdlib Require Structures.OrderedTypeEx.
Import ListNotations.

Set Warnings "-register-all".

Local Open Scope string_scope.
Local Open Scope list_scope.

(** ** Text *)

Definition chr (n : nat) : string := String (ascii_of_nat n) EmptyString.

(** The double quote, the line feed and the escape character. *)
Definition dq : string := chr 34.
Definition nl : string := chr 10.
Definition esc : string := chr 27.

(** An f-string: the concatenation of its pieces. *)
Definition fstr (pieces : list string) : string := String.concat "" pieces.

(** [s * n] on a string. *)
Fixpoint str_repeat (s : string) (n : nat) : string :=
  match n with
  | O => ""
  | S n' => (s ++ str_repeat s n')%string
  end.

(** [needle in hay] on two strings. *)
Fixpoint str_in (needle hay : string) : bool :=
  if String.prefix needle hay then true
  else match hay with
       | EmptyString => false
       | String _ rest => str_in needle rest
       end.

(** [s[:n]]. *)
Definition str_take (n : nat) (s : string) : string := String.substring 0 n s.

(** [c.isspace()] for an ASCII character: tab, line feed, vertical tab, form
    feed, carriage return, the four separators 28..31 and the space. *)
Definition py_isspace (c : ascii) : bool :=
  let n := nat_of_ascii c in
  (((9 <=? n) && (n <=? 13)) || ((28 <=? n) && (n <=? 32)))%nat.

Fixpoint lstrip (s : string) : string :=
  match s with
  | EmptyString => EmptyString
  | String c rest => if py_isspace c then lstrip rest else s
  end.

(** [rstrip] keeps a character when it is not white space or when something
    is kept after it. *)
Fixpoint rstrip (s : string) : string :=
  match s with
  | EmptyString => EmptyString
  | String c rest =>
      match rstrip rest with
      | EmptyString => if py_isspace c then EmptyString else String c EmptyString
      | kept => String c kept
      end
  end.

(** [s.strip()]. *)
Definition strip (s : string) : string := rstrip (lstrip s).

Definition upper_char (c : ascii) : ascii :=
  let n := nat_of_ascii c in
  if ((97 <=? n) && (n <=? 122))%nat then ascii_of_nat (n - 32) else c.

(** [s.upper()]. *)
Fixpoint upper (s : string) : string :=
  match s with
  | EmptyString => EmptyString
  | String c rest => String (upper_char c) (upper rest)
  end.

(** A path below the project root, as its components. *)
Definition path : Type := list string.

(** [str(n)] for a length or a counter. *)
Definition str_of_nat (n : nat) : string := NilEmpty.string_of_uint (Nat.to_uint n).

(** ** Values loaded from JSON *)

Inductive json : Type :=
| JNull
| JBool (b : bool)
| JInt (n : Z)
| JFloat (x : float)
| JStr (s : string)
| JList (items : list json)
| JObj (fields : list (string * json)).

(** A Python [dict] with string keys, in insertion order. *)
Definition dict : Type := list (string * json).

(** [key in d]. *)
Definition dict_mem (key : string) (d : dict) : bool :=
  existsb (fun kv => String.eqb (fst kv) key) d.

(** [d.get(key)], [None] when the key is absent. *)
Fixpoint dict_get (key : string) (d : dict) : option json :=
  match d with
  | [] => None
  | (k, v) :: rest => if String.eqb k key then Some v else dict_get key rest
  end.

(** [d.get(key, default)]. *)
Definition dict_get_default (key : string) (default : json) (d : dict) : json :=
  match dict_get key d with
  | Some v => v
  | None => default
  end.

(** [d[key] = v]: an existing key keeps its place, a new key goes last. *)
Fixpoint dict_set (key : string) (v : json) (d : dict) : dict :=
  match d with
  | [] => [(key, v)]
  | (k, w) :: rest =>
      if String.eqb k key then (k, v) :: rest else (k, w) :: dict_set key v rest
  end.

(** [{**d, **extra}]: the entries of [extra] are set one after the other. *)
Definition dict_update (d extra : dict) : dict :=
  fold_left (fun acc kv => dict_set (fst kv) (snd kv) acc) extra d.

Definition is_dict (v : json) : bool :=
  match v with
  | JObj _ => true
  | _ => false
  end.

(** [bool(v)]. *)
Definition py_truthy (v : json) : bool :=
  match v with
  | JNull => false
  | JBool b => b
  | JInt n => negb (Z.eqb n 0)
  | JFloat x => negb (PrimFloat.eqb x 0%float)
  | JStr s => negb (String.eqb s "")
  | JList items => match items with [] => false | _ => true end
  | JObj fields => match fields with [] => false | _ => true end
  end.

(** [type(v).__name__]. *)
Definition py_type_name (v : json) : string :=
  match v with
  | JNull => "NoneType"
  | JBool _ => "bool"
  | JInt _ => "int"
  | JFloat _ => "float"
  | JStr _ => "str"
  | JList _ => "list"
  | JObj _ => "dict"
  end.

(** ** Exceptions and results *)

(** The exceptions the script can meet.  [ReadError] is what [open] or [read]
    raises (an [OSError] or a [UnicodeDecodeError]); its text comes from the
    environment. *)
Inductive exn : Type :=
| ReadError (msg : string)
| AttributeError
| TypeError
| KeyError.

Inductive result (A : Type) : Type :=
| Ok (a : A)
| Raise (e : exn).
Arguments Ok {A} a.
Arguments Raise {A} e.

Definition rbind {A B : Type} (r : result A) (k : A -> result B) : result B :=
  match r with
  | Ok a => k a
  | Raise e => Raise e
  end.

Notation "'try!' x <- r 'in' k" := (rbind r (fun x => k))
  (at level 10, x name, r at level 100, k at level 200).

(** ** The environment and the process *)

Inductive read_result : Type :=
| ReadOk (text : string)
| ReadFail (err : string).

Inductive parse_result : Type :=
| Parsed (v : json)
| DecodeError (err : string).

(** One observation of the project tree: the files and directories below the
    project root, in the order the system lists them, and what opening and
    reading each of them as UTF-8 text gives. *)
Record filesystem : Type := {
  fs_entries : list path;
  fs_read : path -> read_result
}.

(** The process state: how many times the environment has been observed,
    and the lines printed so far. *)
Record state : Type := {
  clock : nat;
  stdout : list string
}.

Inductive outcome (A : Type) : Type :=
| Done (a : A) (s : state)
| Crashed (e : exn) (s : state)
| Exited (code : Z) (s : state).
Arguments Done {A} a s.
Arguments Crashed {A} e s.
Arguments Exited {A} code s.

Definition prog (A : Type) : Type := state -> outcome A.

Definition ret {A : Type} (a : A) : prog A := fun s => Done a s.

Definition bind {A B : Type} (m : prog A) (k : A -> prog B) : prog B :=
  fun s =>
    match m s with
    | Done a s' => k a s'
    | Crashed e s' => Crashed e s'
    | Exited code s' => Exited code s'
    end.

Notation "x <- m ;; k" := (bind m (fun x => k))
  (at level 61, m at next level, right associativity).
Notation "m ;;; k" := (bind m (fun _ => k))
  (at level 61, right associativity).

(** An exception that nothing catches ends the process. *)
Definition lift {A : Type} (r : result A) : prog A :=
  fun s =>
    match r with
    | Ok a => Done a s
    | Raise e => Crashed e s
    end.

Definition print (line : string) : prog unit :=
  fun s => Done tt {| clock := clock s; stdout := stdout s ++ [line] |}.

Definition sys_exit {A : Type} (code : Z) : prog A := fun s => Exited code s.

Fixpoint path_compare (p q : path) : comparison :=
  match p, q with
  | [], [] => Eq
  | [], _ :: _ => Lt
  | _ :: _, [] => Gt
  | a :: p', b :: q' =>
      match String.compare a b with
      | Eq => path_compare p' q'
      | c => c
      end
  end.

Definition path_eqb (p q : path) : bool :=
  match path_compare p q with
  | Eq => true
  | _ => false
  end.

(** [str(p.relative_to(project_root))]. *)
Definition rel_str (p : path) : string := String.concat "/" p.

(** ** Globbing and sorting *)

(** One component of a glob pattern: a literal name, [lit*] or [*lit]. *)
Inductive segment : Type :=
| Exact (name : string)
| StartsWith (lit : string)
| EndsWith (lit : string).

Fixpoint str_ends_with (suffix s : string) : bool :=
  if String.eqb s suffix then true
  else match s with
       | EmptyString => false
       | String _ rest => str_ends_with suffix rest
       end.

Definition segment_match (seg : segment) (name : string) : bool :=
  match seg with
  | Exact lit => String.eqb name lit
  | StartsWith lit => String.prefix lit name
  | EndsWith lit => str_ends_with lit name
  end.

(** The whole path matches the pattern, component by component. *)
Fixpoint glob_match (pattern : list segment) (p : path) : bool :=
  match pattern, p with
  | [], [] => true
  | seg :: pattern', name :: p' => segment_match seg name && glob_match pattern' p'
  | _, _ => false
  end.

(** [root_dir.glob(pattern)]: the children of the root that match. *)
Definition glob (pattern : list segment) (entries : list path) : list path :=
  filter (glob_match pattern) entries.

(** [root_dir.rglob(pattern)]: the entries at any depth whose last
    components match. *)
Definition rglob (pattern : list segment) (entries : list path) : list path :=
  filter (fun p => glob_match pattern (skipn (List.length p - List.length pattern) p)) entries.

Fixpoint insert_sorted (p : path) (sorted : list path) : list path :=
  match sorted with
  | [] => [p]
  | q :: rest =>
      match path_compare p q with
      | Lt => p :: sorted
      | Eq => sorted
      | Gt => q :: insert_sorted p rest
      end
  end.

(** [sorted(set(paths))]. *)
Definition sorted_set (paths : list path) : list path :=
  fold_right insert_sorted [] paths.

(** The three counters of the run summary. *)
Record counters : Type := {
  total_errors : nat;
  total_warnings : nat;
  total_validated : nat
}.

Definition add_error (c : counters) : counters :=
  {| total_errors := S (total_errors c);
     total_warnings := total_warnings c;
     total_validated := total_validated c |}.

Definition add_warning (c : counters) : counters :=
  {| total_errors := total_errors c;
     total_warnings := S (total_warnings c);
     total_validated := total_validated c |}.

Definition add_validated (c : counters) : counters :=
  {| total_errors := total_errors c;
     total_warnings := total_warnings c;
     total_validated := S (total_validated c) |}.

(** The dict [find_config_files] returns. *)
Record config_files : Type := {
  cf_devcontainer : list path;
  cf_tailwind : list path;
  cf_eslint : list path;
  cf_package : list path;
  cf_tsconfig : list path
}.

(** ** Terminal colours *)

Module Colors.
Definition RED : string := fstr [esc; "[0;31m"].
Definition GREEN : string := fstr [esc; "[0;32m"].
Definition YELLOW : string := fstr [esc; "[1;33m"].
Definition BLUE : string := fstr [esc; "[0;34m"].
Definition CYAN : string := fstr [esc; "[0;36m"].
Definition NC : string := fstr [esc; "[0m"].
End Colors.

(** ** The deprecated-pattern rules *)

(** The record built for one rule:
    [{"name": pattern_name, "category": category_path, **pattern_info}]. *)
Definition make_record (pattern_name category_path : string) (pattern_info : dict) : dict :=
  dict_update [("name", JStr pattern_name); ("category", JStr category_path)] pattern_info.

(** The loop over [data["deprecatedPatterns"].items()]: an entry whose value
    is a dict is appended to [all_deprecated], any other entry is passed over. *)
Fixpoint append_patterns (items : dict) (category_path : string)
    (all_deprecated : list dict) : list dict :=
  match items with
  | [] => all_deprecated
  | (pattern_name, pattern_info) :: rest =>
      match pattern_info with
      | JObj info =>
          append_patterns rest category_path
            (all_deprecated ++ [make_record pattern_name category_path info])
      | _ => append_patterns rest category_path all_deprecated
      end
  end.

(** [f"{category_path}.{key}" if category_path else key]. *)
Definition new_path (category_path key : string) : string :=
  if String.eqb category_path "" then key else fstr [category_path; "."; key].

(** The nested function [extract_deprecated] of [check_deprecated_patterns].
    The list [all_deprecated] it appends to is threaded through.  Calling
    [.items()] on a [deprecatedPatterns] value that is not a dict raises. *)
Fixpoint extract_deprecated (data : json) (category_path : string)
    (all_deprecated : list dict) {struct data} : result (list dict) :=
  match data with
  | JObj fields =>
      try! collected <-
        match dict_get "deprecatedPatterns" fields with
        | None => Ok all_deprecated
        | Some (JObj items) => Ok (append_patterns items category_path all_deprecated)
        | Some _ => Raise AttributeError
        end in
      (fix descend (entries : dict) (acc : list dict) {struct entries}
         : result (list dict) :=
         match entries with
         | [] => Ok acc
         | (key, value) :: rest =>
             if String.eqb key "deprecatedPatterns" then descend rest acc
             else
               try! acc' <- extract_deprecated value (new_path category_path key) acc in
               descend rest acc'
         end) fields collected
  | _ => Ok all_deprecated
  end.

(** The loop [for key, value in data.items()] of [extract_deprecated], named
    so that lemmas can speak about it. *)
Fixpoint descend_items (entries : dict) (category_path : string)
    (acc : list dict) : result (list dict) :=
  match entries with
  | [] => Ok acc
  | (key, value) :: rest =>
      if String.eqb key "deprecatedPatterns" then descend_items rest category_path acc
      else
        try! acc' <- extract_deprecated value (new_path category_path key) acc in
        descend_items rest category_path acc'
  end.

(** ** The matcher, the validators and the driver *)

Section Validator.

(** [str(v)] for a value that is not a string, as an f-string renders it
    ([None], [True], [12], a list, a dict).  The rendering is Python's own and
    stays a parameter of the development. *)
Variable py_repr : json -> string.

(** [f"{v}"]. *)
Definition py_format (v : json) : string :=
  match v with
  | JStr s => s
  | _ => py_repr v
  end.

(** [json.loads]: Python's JSON parser, a parameter of the development. *)
Variable json_loads : string -> parse_result.

(** [str(project_root)], an absolute path. *)
Variable project_root : string.

(** The project tree as the process finds it at its n-th observation. *)
Variable env : nat -> filesystem.

Definition observe : prog filesystem :=
  fun s => Done (env (clock s)) {| clock := S (clock s); stdout := stdout s |}.

(** [open(p, 'r', encoding='utf-8')] followed by [read()]. *)
Definition read_text (p : path) : prog read_result :=
  fs <- observe ;; ret (fs_read fs p).

(** [p.exists()]. *)
Definition path_exists (p : path) : prog bool :=
  fs <- observe ;; ret (existsb (path_eqb p) (fs_entries fs)).

(** [str(p)] for a path below the project root. *)
Definition path_str (p : path) : string :=
  if String.eqb project_root "/" then fstr ["/"; rel_str p]
  else fstr [project_root; "/"; rel_str p].

(** The search variants of a pattern: the pattern itself and, when it
    contains the text checkOnSave, a double quote, a colon and true, the two
    fully quoted spellings of that setting. *)
Definition search_variants (pattern : string) : list string :=
  pattern ::
  (if str_in (fstr ["checkOnSave"; dq; ": true"]) pattern
   then [fstr [dq; "checkOnSave"; dq; ": true"]; "'checkOnSave': true"]
   else []).

(** The message built when [search] was found in the content. *)
Definition finding_message (deprecated : dict) (search : string) : result string :=
  match dict_get_default "severity" (JStr "warning") deprecated with
  | JStr sev =>
      let severity := upper sev in
      let replacement := dict_get_default "replacement" (JStr "See documentation") deprecated in
      let reason := dict_get_default "reason" (JStr "") deprecated in
      match dict_get "name" deprecated with
      | None => Raise KeyError
      | Some name =>
          let error_msg := fstr ["["; severity; "] Deprecated pattern found: "; py_format name] in
          let error_msg :=
            if py_truthy reason
            then fstr [error_msg; nl; "    Reason: "; py_format reason]
            else error_msg in
          let error_msg := fstr [error_msg; nl; "    Found: "; str_take 80 search; "..."] in
          Ok (fstr [error_msg; nl; "    Replace with: "; py_format replacement])
      end
  | _ => Raise AttributeError
  end.

(** The inner loop [for search in search_patterns]: the first variant found
    in the content appends one message and leaves the loop ([break]). *)
Fixpoint search_loop (search_patterns : list string) (content : string)
    (deprecated : dict) (errors : list string) : result (list string) :=
  match search_patterns with
  | [] => Ok errors
  | search :: rest =>
      if str_in search content
      then try! error_msg <- finding_message deprecated search in Ok (errors ++ [error_msg])
      else search_loop rest content deprecated errors
  end.

(** The outer loop [for deprecated in all_deprecated].  A pattern that is
    truthy and not a string makes the [in] tests raise. *)
Fixpoint match_loop (all_deprecated : list dict) (content : string)
    (errors : list string) : result (list string) :=
  match all_deprecated with
  | [] => Ok errors
  | deprecated :: rest =>
      let pattern := dict_get_default "pattern" (JStr "") deprecated in
      if negb (py_truthy pattern) then match_loop rest content errors
      else
        match pattern with
        | JStr p =>
            try! errors' <- search_loop (search_variants p) content deprecated errors in
            match_loop rest content errors'
        | _ => Raise TypeError
        end
  end.

(** [check_deprecated_patterns(content, file_path, intelligence)]. *)
Definition check_deprecated_patterns (content : string) (file_path : path)
    (intelligence : dict) : result (list string) :=
  if negb (py_truthy (JObj intelligence)) || negb (dict_mem "intelligence" intelligence)
  then Ok []
  else
    try! all_deprecated <-
      extract_deprecated (dict_get_default "intelligence" (JObj []) intelligence) "" [] in
    match_loop all_deprecated content [].

(** ** Structural validators *)

Definition REQUIRED_DEVCONTAINER_FIELDS : list string := ["name"; "image"].

Definition is_str (v : json) : bool :=
  match v with
  | JStr _ => true
  | _ => false
  end.

(** [key in config] where [config] is whatever [json.load] returned: key
    membership on a dict, element membership on a list, substring test on a
    string, and a [TypeError] on anything else. *)
Definition py_contains (key : string) (config : json) : result bool :=
  match config with
  | JObj d => Ok (dict_mem key d)
  | JList items =>
      Ok (existsb (fun v => match v with JStr s => String.eqb s key | _ => false end) items)
  | JStr s => Ok (str_in key s)
  | _ => Raise TypeError
  end.

(** [config[key]] with a string key. *)
Definition py_getitem (config : json) (key : string) : result json :=
  match config with
  | JObj d =>
      match dict_get key d with
      | Some v => Ok v
      | None => Raise KeyError
      end
  | _ => Raise TypeError
  end.

(** [not isinstance(v, str) or not v.strip()]. *)
Definition not_nonempty_string (v : json) : bool :=
  match v with
  | JStr s => negb (py_truthy (JStr (strip s)))
  | _ => true
  end.

Definition vscode_checkOnSave_message (check_on_save : bool) : string :=
  fstr ["[ERROR] DEPRECATED: rust-analyzer.checkOnSave as boolean"; nl;
        "    Found: "; dq; "rust-analyzer.checkOnSave"; dq; ": ";
        (if check_on_save then "true" else "false"); nl;
        "    Replace with: "; dq; "rust-analyzer.checkOnSave"; dq; ": { ";
        dq; "enable"; dq; ": true, "; dq; "command"; dq; ": "; dq; "clippy"; dq; " }"; nl;
        "    Reason: Boolean syntax deprecated since 2023-06-01"].

(** [validate_vscode_settings(vscode_config, intelligence)].  The look at
    [extensions] ends in [pass] and leaves no trace. *)
Definition validate_vscode_settings (vscode_config : json) (intelligence : dict)
    : list string :=
  match vscode_config with
  | JObj vscode =>
      match dict_get_default "settings" (JObj []) vscode with
      | JObj settings =>
          match dict_get "rust-analyzer.checkOnSave" settings with
          | Some (JBool check_on_save) => [vscode_checkOnSave_message check_on_save]
          | _ => []
          end
      | _ => ["vscode.settings must be a dictionary"]
      end
  | _ => ["vscode customization must be a dictionary"]
  end.

Definition missing_field_message (field : string) : string :=
  fstr ["Missing required field: '"; field; "'"].

Definition invalid_image_message (image : string) : string :=
  fstr ["Field 'image' appears to be invalid Docker image format: "; image].

(** The loop over [REQUIRED_DEVCONTAINER_FIELDS]. *)
Fixpoint required_fields_loop (fields : list string) (config : json)
    (errors : list string) : result (list string) :=
  match fields with
  | [] => Ok errors
  | field :: rest =>
      try! present <- py_contains field config in
      required_fields_loop rest config
        (if present then errors else errors ++ [missing_field_message field])
  end.

(** The block under the comment "Validate 'name' field". *)
Definition check_name (config : json) (errors : list string) : result (list string) :=
  try! has_name <- py_contains "name" config in
  if has_name
  then
    try! name <- py_getitem config "name" in
    Ok (if not_nonempty_string name
        then errors ++ ["Field 'name' must be a non-empty string"]
        else errors)
  else Ok errors.

(** The block under the comment "Validate 'image' field". *)
Definition check_image (config : json) (errors : list string) : result (list string) :=
  try! has_image <- py_contains "image" config in
  if has_image
  then
    try! image <- py_getitem config "image" in
    Ok (if not_nonempty_string image
        then errors ++ ["Field 'image' must be a non-empty string"]
        else
          match image with
          | JStr img =>
              if negb (str_in ":" img) && negb (str_in "/" img)
              then errors ++ [invalid_image_message img]
              else errors
          | _ => errors
          end)
  else Ok errors.

(** The block under the comment "Validate 'customizations' if present". *)
Definition check_customizations (config : json) (intelligence : dict)
    (errors : list string) : result (list string) :=
  try! has_customizations <- py_contains "customizations" config in
  if has_customizations
  then
    try! customizations <- py_getitem config "customizations" in
    match customizations with
    | JObj cust =>
        match dict_get "vscode" cust with
        | Some vscode => Ok (errors ++ validate_vscode_settings vscode intelligence)
        | None => Ok errors
        end
    | _ => Ok (errors ++ ["Field 'customizations' must be a dictionary"])
    end
  else Ok errors.

(** [validate_devcontainer_structure(config, file_path, intelligence)]: the
    four blocks of the function, in order, on one list of errors. *)
Definition validate_devcontainer_structure (config : json) (file_path : path)
    (intelligence : dict) : result (list string) :=
  try! errors <- required_fields_loop REQUIRED_DEVCONTAINER_FIELDS config [] in
  try! errors <- check_name config errors in
  try! errors <- check_image config errors in
  check_customizations config intelligence errors.

Definition tailwind3_message : string :=
  fstr ["[WARNING] Tailwind 3 configuration detected"; nl;
        "    Consider migrating to Tailwind 4 CSS-first config"; nl;
        "    Use @theme { } directive in CSS instead of JS config"].

Definition purge_message : string :=
  fstr ["[ERROR] Deprecated 'purge' option found"; nl;
        "    Replace with: content: ['./src/**/*.{js,jsx,ts,tsx}']"].

(** The checks [validate_tailwind_config] makes once the file has been read. *)
Definition tailwind_findings (content : string) : list string :=
  (if str_in "module.exports" content && str_in "theme:" content
   then [tailwind3_message]
   else [])
  ++
  (if str_in "purge:" content then [purge_message] else []).

Definition legacy_files : list string :=
  [".eslintrc"; ".eslintrc.js"; ".eslintrc.json"; ".eslintrc.yaml"; ".eslintrc.yml"].

(** [config_path.name]: the last component. *)
Definition path_name (config_path : path) : string := last config_path "".

(** [validate_eslint_config(config_path, intelligence)]. *)
Definition validate_eslint_config (config_path : path) (intelligence : dict)
    : list string :=
  let filename := path_name config_path in
  if existsb (String.eqb filename) legacy_files
  then [fstr ["[WARNING] Legacy ESLint config format detected: "; filename; nl;
              "    ESLint 9+ uses flat config format"; nl;
              "    Migrate to: eslint.config.js or eslint.config.mjs"]]
  else [].

(** [validate_tailwind_config(config_path, intelligence)]: a failure to read
    the file is caught and becomes the only message. *)
Definition validate_tailwind_config (config_path : path) (intelligence : dict)
    : prog (list string) :=
  r <- read_text config_path ;;
  match r with
  | ReadOk content => ret (tailwind_findings content)
  | ReadFail e => ret [fstr ["Error reading Tailwind config: "; e]]
  end.

(** ** Loading the rules and the files *)

(** [project_root / ".framework-intelligence.json"]. *)
Definition intelligence_file : path := [".framework-intelligence.json"].

(** [load_framework_intelligence(project_root)]. *)
Definition load_framework_intelligence : prog dict :=
  present <- path_exists intelligence_file ;;
  if negb present
  then
    print (fstr [Colors.YELLOW; "Warning: Framework intelligence file not found at ";
                 path_str intelligence_file; Colors.NC]) ;;;
    print (fstr [Colors.YELLOW; "Run ./scripts/sync-framework-intelligence.sh to download";
                 Colors.NC]) ;;;
    ret []
  else
    r <- read_text intelligence_file ;;
    match r with
    | ReadFail e =>
        print (fstr [Colors.RED; "Error loading framework intelligence: "; e; Colors.NC]) ;;;
        ret []
    | ReadOk text =>
        match json_loads text with
        | DecodeError e =>
            print (fstr [Colors.RED; "Error: Invalid JSON in framework intelligence file: ";
                         e; Colors.NC]) ;;;
            ret []
        | Parsed (JObj intelligence) =>
            print (fstr [Colors.GREEN; "Loaded framework intelligence v";
                         py_format (dict_get_default "version" (JStr "unknown") intelligence);
                         Colors.NC]) ;;;
            ret intelligence
        | Parsed v =>
            print (fstr [Colors.RED; "Error loading framework intelligence: ";
                         "'"; py_type_name v; "' object has no attribute 'get'"; Colors.NC]) ;;;
            ret []
        end
    end.

(** [validate_json_file(file_path)]; the [None] of the third component is
    [JNull]. *)
Definition validate_json_file (file_path : path) : prog (bool * string * json) :=
  r <- read_text file_path ;;
  match r with
  | ReadFail e => ret (false, fstr ["Error reading file: "; e], JNull)
  | ReadOk text =>
      match json_loads text with
      | DecodeError e => ret (false, fstr ["Invalid JSON: "; e], JNull)
      | Parsed content => ret (true, "", content)
      end
  end.

Definition no_node_modules (p : path) : bool :=
  negb (str_in "node_modules" (path_str p)).

(** [find_config_files(root_dir)].  Every [rglob] and [glob] walks the tree
    once, so each is one observation of the environment. *)
Definition find_config_files : prog config_files :=
  fs1 <- observe ;;
  fs2 <- observe ;;
  fs3 <- observe ;;
  let devcontainer :=
    filter no_node_modules
      (rglob [Exact ".devcontainer"; Exact "devcontainer.json"] (fs_entries fs1))
    ++ filter no_node_modules (rglob [Exact "devcontainer.json"] (fs_entries fs2))
    ++ filter no_node_modules
         (rglob [Exact "tools"; Exact "devcontainer"; EndsWith ".json"] (fs_entries fs3)) in
  fs4 <- observe ;;
  fs5 <- observe ;;
  fs6 <- observe ;;
  let tailwind :=
    filter no_node_modules (rglob [Exact "tailwind.config.js"] (fs_entries fs4))
    ++ filter no_node_modules (rglob [Exact "tailwind.config.ts"] (fs_entries fs5))
    ++ filter no_node_modules (rglob [Exact "tailwind.config.mjs"] (fs_entries fs6)) in
  fs7 <- observe ;;
  fs8 <- observe ;;
  let eslint :=
    glob [StartsWith ".eslintrc"] (fs_entries fs7)
    ++ glob [StartsWith "eslint.config."] (fs_entries fs8) in
  ret {| cf_devcontainer := sorted_set devcontainer;
         cf_tailwind := sorted_set tailwind;
         cf_eslint := sorted_set eslint;
         cf_package := sorted_set [];
         cf_tsconfig := sorted_set [] |}.

(** ** The driver *)

Definition banner : string := fstr [Colors.BLUE; str_repeat "=" 60; Colors.NC].

(** The loop over [all_errors] of a devcontainer file: three branches, a
    message with neither marker is printed red and counted as an error. *)
Fixpoint report_devcontainer (all_errors : list string) (c : counters) : prog counters :=
  match all_errors with
  | [] => ret c
  | error :: rest =>
      if str_in "[ERROR]" error
      then print (fstr ["  "; Colors.RED; error; Colors.NC]) ;;;
           report_devcontainer rest (add_error c)
      else if str_in "[WARNING]" error
      then print (fstr ["  "; Colors.YELLOW; error; Colors.NC]) ;;;
           report_devcontainer rest (add_warning c)
      else print (fstr ["  "; Colors.RED; error; Colors.NC]) ;;;
           report_devcontainer rest (add_error c)
  end.

(** The loop over [errors] of a Tailwind config: two branches. *)
Fixpoint report_tailwind (errors : list string) (c : counters) : prog counters :=
  match errors with
  | [] => ret c
  | error :: rest =>
      if str_in "[ERROR]" error
      then print (fstr ["  "; Colors.RED; error; Colors.NC]) ;;;
           report_tailwind rest (add_error c)
      else print (fstr ["  "; Colors.YELLOW; error; Colors.NC]) ;;;
           report_tailwind rest (add_warning c)
  end.

(** The loop over [errors] of an ESLint config: the same two branches. *)
Fixpoint report_eslint (errors : list string) (c : counters) : prog counters :=
  match errors with
  | [] => ret c
  | error :: rest =>
      if str_in "[ERROR]" error
      then print (fstr ["  "; Colors.RED; error; Colors.NC]) ;;;
           report_eslint rest (add_error c)
      else print (fstr ["  "; Colors.YELLOW; error; Colors.NC]) ;;;
           report_eslint rest (add_warning c)
  end.

Definition print_valid (c : counters) : prog counters :=
  print (fstr ["  "; Colors.GREEN; "Valid"; Colors.NC]) ;;;
  ret (add_validated c).

(** The body of the loop over the devcontainer files.  The second [open],
    which reads the raw content, stands outside any [try]. *)
Definition devcontainer_step (intelligence : dict) (devcontainer_file : path)
    (c : counters) : prog counters :=
  print (fstr [nl; Colors.BLUE; rel_str devcontainer_file; Colors.NC]) ;;;
  checked <- validate_json_file devcontainer_file ;;
  let '(is_valid, json_error, config) := checked in
  if negb is_valid
  then
    print (fstr ["  "; Colors.RED; "Invalid JSON: "; json_error; Colors.NC]) ;;;
    ret (add_error c)
  else
    structure_errors <-
      lift (validate_devcontainer_structure config devcontainer_file intelligence) ;;
    r <- read_text devcontainer_file ;;
    match r with
    | ReadFail e => lift (Raise (ReadError e))
    | ReadOk raw_content =>
        deprecated_errors <-
          lift (check_deprecated_patterns raw_content devcontainer_file intelligence) ;;
        let all_errors := structure_errors ++ deprecated_errors in
        match all_errors with
        | [] => print_valid c
        | _ => report_devcontainer all_errors c
        end
    end.

Definition tailwind_step (intelligence : dict) (tailwind_file : path)
    (c : counters) : prog counters :=
  print (fstr [nl; Colors.BLUE; rel_str tailwind_file; Colors.NC]) ;;;
  errors <- validate_tailwind_config tailwind_file intelligence ;;
  match errors with
  | [] => print_valid c
  | _ => report_tailwind errors c
  end.

Definition eslint_step (intelligence : dict) (eslint_file : path)
    (c : counters) : prog counters :=
  print (fstr [nl; Colors.BLUE; path_name eslint_file; Colors.NC]) ;;;
  let errors := validate_eslint_config eslint_file intelligence in
  match errors with
  | [] => print_valid c
  | _ => report_eslint errors c
  end.

(** A [for] loop over files whose body updates the counters. *)
Fixpoint for_each (step : path -> counters -> prog counters) (files : list path)
    (c : counters) : prog counters :=
  match files with
  | [] => ret c
  | file :: rest => c' <- step file c ;; for_each step rest c'
  end.

(** One section of the report: nothing at all when no file of the kind was
    found, else a heading, a rule and the loop. *)
Definition section (title : string) (step : path -> counters -> prog counters)
    (files : list path) (c : counters) : prog counters :=
  match files with
  | [] => ret c
  | _ =>
      print (fstr [nl; Colors.CYAN; title; " ("; str_of_nat (List.length files); ")";
                   Colors.NC]) ;;;
      print (str_repeat "-" 40) ;;;
      for_each step files c
  end.

(** [main] from the line that announces the scan up to the summary: find the
    files and validate them kind by kind. *)
Definition scan_files (intelligence : dict) : prog counters :=
  print (fstr [nl; Colors.CYAN; "Scanning: "; project_root; Colors.NC; nl]) ;;;
  found <- find_config_files ;;
  let c := {| total_errors := 0; total_warnings := 0; total_validated := 0 |} in
  c <- section "DevContainer Files" (devcontainer_step intelligence) (cf_devcontainer found) c ;;
  c <- section "Tailwind CSS Configs" (tailwind_step intelligence) (cf_tailwind found) c ;;
  section "ESLint Configs" (eslint_step intelligence) (cf_eslint found) c.

(** [main] up to the summary: the banner, the rules, the scan. *)
Definition scan : prog counters :=
  print (fstr [nl; banner]) ;;;
  print (fstr [Colors.BLUE; "  Framework Intelligence Configuration Validator"; Colors.NC]) ;;;
  print (fstr [banner; nl]) ;;;
  intelligence <- load_framework_intelligence ;;
  scan_files intelligence.

(** The summary and the exit status. *)
Definition summary (c : counters) : prog unit :=
  print (fstr [nl; banner]) ;;;
  print (fstr [Colors.BLUE; "  Validation Summary"; Colors.NC]) ;;;
  print banner ;;;
  print (fstr ["  "; Colors.GREEN; "Valid:"; Colors.NC; " "; str_of_nat (total_validated c)]) ;;;
  print (fstr ["  "; Colors.YELLOW; "Warnings:"; Colors.NC; " "; str_of_nat (total_warnings c)]) ;;;
  print (fstr ["  "; Colors.RED; "Errors:"; Colors.NC; " "; str_of_nat (total_errors c)]) ;;;
  print "" ;;;
  if Nat.eqb (total_errors c) 0
  then
    print (fstr [Colors.GREEN; "All configurations are valid!"; Colors.NC; nl]) ;;;
    sys_exit 0%Z
  else
    print (fstr [Colors.RED; str_of_nat (total_errors c);
                 " error(s) found. Please fix before committing."; Colors.NC; nl]) ;;;
    sys_exit 1%Z.

(** [main()]. *)
Definition main : prog unit :=
  c <- scan ;; summary c.

(** ** Notions the statements are written with *)

(** The dict nodes the flattener visits, in the order it visits them, each
    with the keys of its ancestors: a node first, then what lies below each
    of its keys other than [deprecatedPatterns]. *)
Fixpoint reached_nodes (tree : json) (ancestors : list string) {struct tree}
    : list (list string * dict) :=
  match tree with
  | JObj fields =>
      (ancestors, fields) ::
      (fix below (entries : dict) : list (list string * dict) :=
         match entries with
         | [] => []
         | (key, value) :: rest =>
             (if String.eqb key "deprecatedPatterns" then []
              else reached_nodes value (ancestors ++ [key]))
             ++ below rest
         end) fields
  | _ => []
  end.

Fixpoint nodes_below (entries : dict) (ancestors : list string)
    : list (list string * dict) :=
  match entries with
  | [] => []
  | (key, value) :: rest =>
      (if String.eqb key "deprecatedPatterns" then []
       else reached_nodes value (ancestors ++ [key]))
      ++ nodes_below rest ancestors
  end.

(** The entries of a [deprecatedPatterns] map whose value is a mapping. *)
Definition mapping_entries (items : dict) : list (string * dict) :=
  flat_map (fun kv => match snd kv with JObj info => [(fst kv, info)] | _ => [] end) items.

(** A node is well shaped when its [deprecatedPatterns] value, if it has
    one, is a mapping. *)
Definition node_ok (node : list string * dict) : bool :=
  match dict_get "deprecatedPatterns" (snd node) with
  | Some (JObj _) => true
  | Some _ => false
  | None => true
  end.

Definition patterns_are_maps (tree : json) : bool :=
  forallb node_ok (reached_nodes tree []).

(** The rules of a node: ancestors, name and body of every mapping-valued
    entry of its [deprecatedPatterns] map. *)
Definition node_rules (node : list string * dict) : list (list string * string * dict) :=
  match dict_get "deprecatedPatterns" (snd node) with
  | Some (JObj items) => map (fun e => (fst node, fst e, snd e)) (mapping_entries items)
  | _ => []
  end.

Definition rule_entries (tree : json) : list (list string * string * dict) :=
  flat_map node_rules (reached_nodes tree []).

(** How many entries with a mapping as value the [deprecatedPatterns] maps of
    the visited nodes hold. *)
Definition mapping_entry_count (tree : json) : nat :=
  list_sum
    (map (fun node =>
            match dict_get "deprecatedPatterns" (snd node) with
            | Some (JObj items) => List.length (filter (fun kv => is_dict (snd kv)) items)
            | _ => 0
            end)
         (reached_nodes tree [])).

(** The total number of entries across every [deprecatedPatterns] map at
    every nesting depth, as the specification words it. *)
Fixpoint entry_count (tree : json) : nat :=
  match tree with
  | JObj fields =>
      (fix total (entries : dict) : nat :=
         match entries with
         | [] => 0
         | (key, value) :: rest =>
             (if String.eqb key "deprecatedPatterns"
              then match value with JObj items => List.length items | _ => 0 end
              else 0)
             + entry_count value + total rest
         end) fields
  | _ => 0
  end.

(** The dotted path of a list of ancestor keys.  Keys that are empty and
    come before the first key that is not leave no trace in it. *)
Fixpoint drop_empty_prefix (keys : list string) : list string :=
  match keys with
  | [] => []
  | key :: rest => if String.eqb key "" then drop_empty_prefix rest else keys
  end.

Definition dotted_path (ancestors : list string) : string :=
  String.concat "." (drop_empty_prefix ancestors).

Definition rule_record (rule : list string * string * dict) : dict :=
  let '(ancestors, name, info) := rule in
  make_record name (dotted_path ancestors) info.

(** The flattener seen as a pass over the visited nodes. *)
Fixpoint collect (nodes : list (list string * dict)) (acc : list dict)
    : result (list dict) :=
  match nodes with
  | [] => Ok acc
  | (ancestors, fields) :: rest =>
      match dict_get "deprecatedPatterns" fields with
      | None => collect rest acc
      | Some (JObj items) => collect rest (append_patterns items (dotted_path ancestors) acc)
      | Some _ => Raise AttributeError
      end
  end.

(** [drops_entry tree tree']: [tree'] is [tree] without one entry of a
    [deprecatedPatterns] map, an entry whose value is not a mapping; the map
    sits at the root or below keys other than [deprecatedPatterns]. *)
Inductive drops_entry : json -> json -> Prop :=
| drop_here (front back before after : dict) (name : string) (value : json) :
    is_dict value = false ->
    drops_entry
      (JObj (front ++ ("deprecatedPatterns", JObj (before ++ (name, value) :: after)) :: back))
      (JObj (front ++ ("deprecatedPatterns", JObj (before ++ after)) :: back))
| drop_below (front back : dict) (key : string) (child child' : json) :
    String.eqb key "deprecatedPatterns" = false ->
    drops_entry child child' ->
    drops_entry (JObj (front ++ (key, child) :: back)) (JObj (front ++ (key, child') :: back)).

(** A rule tree with one text entry beside one rule. *)
Definition tree_with_text_entry : json :=
  JObj [("tools",
         JObj [("deprecatedPatterns",
                JObj [("note", JStr "just text");
                      ("old-flag", JObj [("pattern", JStr "--old")])])])].

Definition tree_without_text_entry : json :=
  JObj [("tools",
         JObj [("deprecatedPatterns",
                JObj [("old-flag", JObj [("pattern", JStr "--old")])])])].

(** A rule record hits a content when its pattern is a string that is not
    empty and one of its search variants occurs in the content. *)
Definition rule_hits (content : string) (deprecated : dict) : bool :=
  match dict_get_default "pattern" (JStr "") deprecated with
  | JStr p =>
      negb (String.eqb p "")
      && existsb (fun search => str_in search content) (search_variants p)
  | _ => false
  end.

(** A rule record the matcher can handle: the pattern is a string or is
    falsy, the severity is a string, the name is there. *)
Definition rule_well_typed (deprecated : dict) : bool :=
  let pattern := dict_get_default "pattern" (JStr "") deprecated in
  (is_str pattern || negb (py_truthy pattern))
  && is_str (dict_get_default "severity" (JStr "warning") deprecated)
  && dict_mem "name" deprecated.

(** The first half of [check_deprecated_patterns]: the flat list of rules. *)
Definition flattened_rules (intelligence : dict) : result (list dict) :=
  if negb (py_truthy (JObj intelligence)) || negb (dict_mem "intelligence" intelligence)
  then Ok []
  else extract_deprecated (dict_get_default "intelligence" (JObj []) intelligence) "" [].

(** Two rules, and a content in which the patterns of both occur. *)
Definition two_rules : dict :=
  [("version", JStr "1.0");
   ("intelligence",
    JObj [("tailwind",
           JObj [("deprecatedPatterns",
                  JObj [("purge-option",
                         JObj [("pattern", JStr "purge:"); ("severity", JStr "error")]);
                        ("mode-jit",
                         JObj [("pattern", JStr "mode: 'jit'")])])])])].

Definition content_with_both : string := "module.exports = { mode: 'jit', purge: [] }".

(** The messages of the structural validator on a dict, check by check. *)
Definition missing_messages (config : dict) : list string :=
  map missing_field_message
    (filter (fun field => negb (dict_mem field config)) REQUIRED_DEVCONTAINER_FIELDS).

Definition name_messages (config : dict) : list string :=
  match dict_get "name" config with
  | Some name =>
      if not_nonempty_string name then ["Field 'name' must be a non-empty string"] else []
  | None => []
  end.

Definition image_messages (config : dict) : list string :=
  match dict_get "image" config with
  | Some (JStr img) =>
      if String.eqb (strip img) "" then ["Field 'image' must be a non-empty string"]
      else if negb (str_in ":" img) && negb (str_in "/" img)
           then [invalid_image_message img]
           else []
  | Some _ => ["Field 'image' must be a non-empty string"]
  | None => []
  end.

Definition customizations_messages (config : dict) (intelligence : dict) : list string :=
  match dict_get "customizations" config with
  | Some (JObj cust) =>
      match dict_get "vscode" cust with
      | Some vscode => validate_vscode_settings vscode intelligence
      | None => []
      end
  | Some _ => ["Field 'customizations' must be a dictionary"]
  | None => []
  end.

(** How the two kinds of message the claims count are told apart. *)
Definition is_missing_field_message (msg : string) : bool :=
  String.prefix "Missing required field: '" msg.

Definition is_invalid_image_message (msg : string) : bool :=
  String.prefix "Field 'image' appears to be invalid Docker image format: " msg.

(** What an outcome holds. *)
Definition returned {A : Type} (o : outcome A) : option A :=
  match o with
  | Done a _ => Some a
  | _ => None
  end.

Definition exit_code {A : Type} (o : outcome A) : option Z :=
  match o with
  | Exited code _ => Some code
  | _ => None
  end.

Definition uncaught {A : Type} (o : outcome A) : option exn :=
  match o with
  | Crashed e _ => Some e
  | _ => None
  end.

Definition final_state {A : Type} (o : outcome A) : state :=
  match o with
  | Done _ s => s
  | Crashed _ s => s
  | Exited _ s => s
  end.

(** The state a process starts in. *)
Definition start : state := {| clock := 0; stdout := [] |}.

(** Python's rendering of values that are not strings plays no part in the
    instances: their rules hold strings only. *)
Definition no_repr (v : json) : string := "".

(** A parser for the instances: it knows one devcontainer text. *)
Definition devcontainer_text : string :=
  fstr ["{"; dq; "name"; dq; ": "; dq; "web"; dq; ", ";
        dq; "image"; dq; ": "; dq; "node:20"; dq; "}"].

Definition tiny_loads (text : string) : parse_result :=
  if String.eqb text devcontainer_text
  then Parsed (JObj [("name", JStr "web"); ("image", JStr "node:20")])
  else DecodeError "Expecting value: line 1 column 1 (char 0)".

(** A project whose only configuration file is a Tailwind config that cannot
    be read. *)
Definition unreadable_tailwind_tree : filesystem :=
  {| fs_entries := [["tailwind.config.js"]];
     fs_read := fun _ => ReadFail "[Errno 13] Permission denied: 'tailwind.config.js'" |}.

Definition unreadable_tailwind_env (n : nat) : filesystem := unreadable_tailwind_tree.

(** A project whose devcontainer file is there, and valid, up to the first
    time the driver opens it, and gone when the driver opens it again. *)
Definition tree_with_devcontainer : filesystem :=
  {| fs_entries := [[".devcontainer"]; [".devcontainer"; "devcontainer.json"]];
     fs_read := fun p =>
       if path_eqb p [".devcontainer"; "devcontainer.json"]
       then ReadOk devcontainer_text
       else ReadFail "[Errno 21] Is a directory" |}.

Definition tree_after_removal : filesystem :=
  {| fs_entries := [[".devcontainer"]];
     fs_read := fun _ =>
       ReadFail "[Errno 2] No such file or directory: 'devcontainer.json'" |}.

Definition vanishing_env (n : nat) : filesystem :=
  if Nat.leb n 9 then tree_with_devcontainer else tree_after_removal.

(** [ensures C m s Q]: run from [s], the program [m] does not leave through
    [sys.exit]; if it returns, its value and final state satisfy [Q]; if an
    exception ends it, the exception satisfies [C]. *)
Definition ensures {A : Type} (C : exn -> Prop) (m : prog A) (s : state)
    (Q : A -> state -> Prop) : Prop :=
  match m s with
  | Done a s' => Q a s'
  | Crashed e _ => C e
  | Exited _ _ => False
  end.

(** Any exception, and any exception but a read error. *)
Definition any_exn (e : exn) : Prop := True.

Definition not_read_exn (e : exn) : Prop :=
  match e with
  | ReadError _ => False
  | _ => True
  end.

(** Two outcomes that agree on everything but the process state. *)
Definition same_result {A : Type} (o1 o2 : outcome A) : Prop :=
  match o1, o2 with
  | Done a1 _, Done a2 _ => a1 = a2
  | Crashed e1 _, Crashed e2 _ => e1 = e2
  | Exited c1 _, Exited c2 _ => c1 = c2
  | _, _ => False
  end.

(** A project with one Tailwind config that still sets [purge]. *)
Definition purge_tree : filesystem :=
  {| fs_entries := [["web"]; ["web"; "tailwind.config.js"]];
     fs_read := fun p =>
       if path_eqb p ["web"; "tailwind.config.js"]
       then ReadOk "module.exports = { purge: ['./src/**/*.html'] }"
       else ReadFail "[Errno 21] Is a directory" |}.

Definition purge_env (n : nat) : filesystem := purge_tree.

(** The names [find_config_files] looks for as Tailwind configs. *)
Definition tailwind_names : list string :=
  ["tailwind.config.js"; "tailwind.config.ts"; "tailwind.config.mjs"].









(** A program is steady when its result is the same from every state. *)
Definition steady {A : Type} (m : prog A) : Prop :=
  forall s1 s2, same_result (m s1) (m s2).



(** A result that is not a read error. *)
Definition no_read_error {A : Type} (r : result A) : Prop :=
  match r with
  | Raise (ReadError _) => False
  | _ => True
  end.

(** A rule record whose pattern is truthy and not a string. *)
Definition pattern_ill_typed (deprecated : dict) : bool :=
  let pattern := dict_get_default "pattern" (JStr "") deprecated in
  py_truthy pattern && negb (is_str pattern).

(** A rule set with a numeric pattern, as a slip in the rules file gives. *)
Definition rules_with_numeric_pattern : dict :=
  [("intelligence",
    JObj [("deprecatedPatterns",
           JObj [("old-port", JObj [("pattern", JInt 8080)])])])].


(** [key in config] as a plain truth value, for a config on which the test
    does not raise. *)
Definition mentions (key : string) (config : json) : bool :=
  match py_contains key config with
  | Ok present => present
  | Raise _ => false
  end.


(** A message the devcontainer loop counts as an error. *)
Definition counted_as_error (msg : string) : bool :=
  str_in "[ERROR]" msg || negb (str_in "[WARNING]" msg).

(** No exception at all. *)
Definition no_exn (e : exn) : Prop := False.


(** The sum of the three counters. *)
Definition total (c : counters) : nat :=
  total_errors c + total_warnings c + total_validated c.

(** What processing one file does to the counters at the least: no counter
    goes down, the valid counter goes up by one at most, and the sum of the
    three goes up. *)
Definition accounts_for_one (c c' : counters) : Prop :=
  total_errors c <= total_errors c'
  /\ total_warnings c <= total_warnings c'
  /\ total_validated c <= total_validated c' <= S (total_validated c)
  /\ S (total c) <= total c'.

Definition accounts_for (n : nat) (c c' : counters) : Prop :=
  total_errors c <= total_errors c'
  /\ total_warnings c <= total_warnings c'
  /\ total_validated c <= total_validated c' <= total_validated c + n
  /\ total c + n <= total c'.

(** The order [sorted] puts paths in. *)
Definition path_lt (p q : path) : Prop := path_compare p q = Lt.

(** The shapes of path [find_config_files] looks for. *)
Definition is_devcontainer_path (p : path) : Prop :=
  exists dirs,
    p = dirs ++ ["devcontainer.json"]
    \/ exists name,
         p = dirs ++ ["tools"; "devcontainer"; name] /\ str_ends_with ".json" name = true.

Definition is_tailwind_path (p : path) : Prop :=
  exists dirs name, p = dirs ++ [name] /\ In name tailwind_names.

Definition is_eslint_path (p : path) : Prop :=
  exists name,
    p = [name]
    /\ (String.prefix ".eslintrc" name = true \/ String.prefix "eslint.config." name = true).


(** The tree of [purge_env] as a walk can list it as well: in another
    order, and with an entry listed twice. *)
Definition purge_tree_relisted : filesystem :=
  {| fs_entries := [["web"; "tailwind.config.js"]; ["web"]; ["web"; "tailwind.config.js"]];
     fs_read := fs_read purge_tree |}.


Definition no_counts : counters :=
  {| total_errors := 0; total_warnings := 0; total_validated := 0 |}.

(** ** The flattener *)

Lemma json_fields_ind (P : json -> Prop) :
  (forall v, is_dict v = false -> P v) ->
  (forall fields, Forall (fun kv => P (snd kv)) fields -> P (JObj fields)) ->
  forall v, P v.
Proof.
  intros Hleaf Hobj.
  fix IH 1.
  intros [ | b | n | x | s | items | fields]; try (apply Hleaf; reflexivity).
  apply Hobj.
  induction fields as [ | [k v] rest IHrest]; constructor.
  - apply IH.
  - exact IHrest.
Qed.

Lemma extract_deprecated_obj (fields : dict) (category_path : string) (acc : list dict) :
  extract_deprecated (JObj fields) category_path acc =
  try! collected <-
    match dict_get "deprecatedPatterns" fields with
    | None => Ok acc
    | Some (JObj items) => Ok (append_patterns items category_path acc)
    | Some _ => Raise AttributeError
    end in
  descend_items fields category_path collected.
Proof.
  cbn [extract_deprecated].
  generalize (match dict_get "deprecatedPatterns" fields with
              | None => Ok acc
              | Some (JObj items) => Ok (append_patterns items category_path acc)
              | Some _ => Raise AttributeError
              end).
  intros [collected | e]; cbn [rbind]; [ | reflexivity].
  revert collected.
  induction fields as [ | [key value] rest IH]; intros collected; cbn [descend_items].
  - reflexivity.
  - destruct (String.eqb key "deprecatedPatterns").
    + apply IH.
    + destruct (extract_deprecated value (new_path category_path key) collected);
        cbn [rbind]; [apply IH | reflexivity].
Qed.

Lemma reached_nodes_obj (fields : dict) (ancestors : list string) :
  reached_nodes (JObj fields) ancestors = (ancestors, fields) :: nodes_below fields ancestors.
Proof.
  change (reached_nodes (JObj fields) ancestors) with
    ((ancestors, fields) ::
     (fix below (entries : dict) : list (list string * dict) :=
        match entries with
        | [] => []
        | (key, value) :: rest =>
            (if String.eqb key "deprecatedPatterns" then []
             else reached_nodes value (ancestors ++ [key]))
            ++ below rest
        end) fields).
  f_equal.
  induction fields as [ | [key value] rest IH]; cbn [nodes_below].
  - reflexivity.
  - now rewrite IH.
Qed.

Lemma str_app_assoc (a b c : string) : ((a ++ b) ++ c)%string = (a ++ (b ++ c))%string.
Proof.
  induction a as [ | ch a IH]; cbn; [reflexivity | now rewrite IH].
Qed.

Lemma concat_snoc (sep first : string) (others : list string) (x : string) :
  String.concat sep ((first :: others) ++ [x]) =
  (String.concat sep (first :: others) ++ sep ++ x)%string.
Proof.
  revert first.
  induction others as [ | second others IH]; intros first.
  - reflexivity.
  - change (String.concat sep ((first :: second :: others) ++ [x]))
      with (first ++ sep ++ String.concat sep ((second :: others) ++ [x]))%string.
    rewrite IH.
    change (String.concat sep (first :: second :: others))
      with (first ++ sep ++ String.concat sep (second :: others))%string.
    now rewrite !str_app_assoc.
Qed.

Lemma concat_head_nonempty (sep first : string) (others : list string) :
  first <> "" -> String.concat sep (first :: others) <> "".
Proof.
  intros Hne.
  destruct first as [ | ch first]; [congruence | ].
  destruct others; cbn; discriminate.
Qed.

(** The path the flattener hands down is the dotted path of the keys above. *)
Lemma new_path_dotted (ancestors : list string) (key : string) :
  new_path (dotted_path ancestors) key = dotted_path (ancestors ++ [key]).
Proof.
  unfold dotted_path, new_path.
  induction ancestors as [ | a rest IH]; cbn [drop_empty_prefix app].
  - destruct (String.eqb_spec key "") as [-> | Hkey]; reflexivity.
  - destruct (String.eqb_spec a "") as [-> | Ha].
    + exact IH.
    + destruct (String.eqb_spec (String.concat "." (a :: rest)) "") as [Hnil | _].
      * now apply concat_head_nonempty in Hnil.
      * change (a :: rest ++ [key]) with ((a :: rest) ++ [key]).
        rewrite concat_snoc. reflexivity.
Qed.

Lemma collect_app (front back : list (list string * dict)) (acc : list dict) :
  collect (front ++ back) acc = try! mid <- collect front acc in collect back mid.
Proof.
  revert acc.
  induction front as [ | [ancestors fields] front IH]; intros acc; cbn [collect app rbind].
  - reflexivity.
  - destruct (dict_get "deprecatedPatterns" fields) as [[ | | | | | | items] | ];
      try reflexivity; apply IH.
Qed.

(** The flattener is a pass over the nodes it visits. *)
Lemma extract_deprecated_collect (tree : json) :
  forall ancestors acc,
    extract_deprecated tree (dotted_path ancestors) acc =
    collect (reached_nodes tree ancestors) acc.
Proof.
  induction tree as [v Hleaf | fields IH] using json_fields_ind; intros ancestors acc.
  - destruct v; try discriminate; reflexivity.
  - rewrite extract_deprecated_obj, reached_nodes_obj. cbn [collect].
    assert (Hbelow : forall acc', descend_items fields (dotted_path ancestors) acc' =
                                  collect (nodes_below fields ancestors) acc').
    { induction IH as [ | [key value] rest Hvalue _ IHrest]; intros acc';
        cbn [descend_items nodes_below].
      - reflexivity.
      - destruct (String.eqb key "deprecatedPatterns"); cbn [app].
        + apply IHrest.
        + rewrite collect_app, new_path_dotted. cbn [snd] in Hvalue. rewrite Hvalue.
          destruct (collect (reached_nodes value (ancestors ++ [key])) acc');
            cbn [rbind]; [apply IHrest | reflexivity]. }
    destruct (dict_get "deprecatedPatterns" fields) as [[ | | | | | | items] | ];
      cbn [rbind]; try reflexivity; apply Hbelow.
Qed.

Lemma append_patterns_spec (items : dict) (category_path : string) (acc : list dict) :
  append_patterns items category_path acc =
  acc ++ map (fun e => make_record (fst e) category_path (snd e)) (mapping_entries items).
Proof.
  revert acc.
  induction items as [ | [name info] rest IH]; intros acc; cbn [append_patterns].
  - cbn. now rewrite app_nil_r.
  - destruct info; cbn [mapping_entries flat_map snd fst app map] in *;
      rewrite IH; try reflexivity.
    now rewrite <- app_assoc.
Qed.

Lemma mapping_entries_length (items : dict) :
  List.length (mapping_entries items) = List.length (filter (fun kv => is_dict (snd kv)) items).
Proof.
  induction items as [ | [name info] rest IH]; [reflexivity | ].
  destruct info; cbn in *; auto.
Qed.

Lemma collect_spec (nodes : list (list string * dict)) (acc : list dict) :
  collect nodes acc =
  if forallb node_ok nodes
  then Ok (acc ++ map rule_record (flat_map node_rules nodes))
  else Raise AttributeError.
Proof.
  revert acc.
  induction nodes as [ | [ancestors fields] nodes IH]; intros acc;
    cbn [collect forallb flat_map].
  - cbn. now rewrite app_nil_r.
  - unfold node_ok at 1, node_rules at 1. cbn [snd fst].
    destruct (dict_get "deprecatedPatterns" fields) as [[ | | | | | | items] | ];
      cbn [andb app]; try reflexivity.
    + rewrite IH, append_patterns_spec.
      destruct (forallb node_ok nodes); [ | reflexivity].
      rewrite map_app, map_map, <- app_assoc. reflexivity.
    + apply IH.
Qed.

Lemma dict_get_set_other (key key' : string) (v : json) (d : dict) :
  String.eqb key' key = false -> dict_get key (dict_set key' v d) = dict_get key d.
Proof.
  intros Hne.
  induction d as [ | [k w] rest IH]; cbn [dict_set dict_get].
  - now rewrite Hne.
  - destruct (String.eqb_spec k key') as [-> | Hk]; cbn [dict_get].
    + now rewrite Hne.
    + now rewrite IH.
Qed.

Lemma dict_get_set_same (key : string) (v : json) (d : dict) :
  dict_get key (dict_set key v d) = Some v.
Proof.
  induction d as [ | [k w] rest IH]; cbn [dict_set dict_get].
  - now rewrite String.eqb_refl.
  - destruct (String.eqb_spec k key) as [-> | Hk]; cbn [dict_get].
    + now rewrite String.eqb_refl.
    + apply String.eqb_neq in Hk. now rewrite Hk.
Qed.

Lemma dict_mem_get (key : string) (d : dict) :
  dict_mem key d = match dict_get key d with Some _ => true | None => false end.
Proof.
  unfold dict_mem.
  induction d as [ | [k w] rest IH]; cbn [existsb dict_get fst]; [reflexivity | ].
  destruct (String.eqb k key); [reflexivity | exact IH].
Qed.

Lemma dict_get_update_absent (key : string) (extra d : dict) :
  dict_mem key extra = false -> dict_get key (dict_update d extra) = dict_get key d.
Proof.
  unfold dict_update, dict_mem.
  revert d.
  induction extra as [ | [k w] extra IH]; intros d Habsent; cbn [fold_left fst snd].
  - reflexivity.
  - cbn [existsb fst] in Habsent. apply orb_false_iff in Habsent as [Hk Hrest].
    rewrite IH by exact Hrest.
    now apply dict_get_set_other.
Qed.

(** A rule that does not define [category] itself carries the category the
    flattener gave it. *)
Lemma make_record_category (name category_path : string) (info : dict) :
  dict_mem "category" info = false ->
  dict_get "category" (make_record name category_path info) = Some (JStr category_path).
Proof.
  intros Habsent. unfold make_record.
  now rewrite dict_get_update_absent.
Qed.

Lemma length_flat_map_sum {A B : Type} (f : A -> list B) (l : list A) :
  List.length (flat_map f l) = list_sum (map (fun a => List.length (f a)) l).
Proof.
  induction l as [ | a l IH]; cbn [flat_map map list_sum]; [reflexivity | ].
  now rewrite length_app, IH.
Qed.

(** C2, as amended.  The flattener raises when a visited node holds a
    [deprecatedPatterns] value that is not a mapping; otherwise it yields
    exactly one record for every mapping-valued entry of the
    [deprecatedPatterns] maps of the visited nodes (the root and what lies
    below keys other than [deprecatedPatterns]), in visiting order; their
    number is the number of such entries, and a record whose entry does not
    define [category] itself carries the dotted path of its ancestors. *)
Theorem flattener_one_record_per_mapping_entry (tree : json) :
  extract_deprecated tree "" [] =
    (if patterns_are_maps tree
     then Ok (map rule_record (rule_entries tree))
     else Raise AttributeError)
  /\ List.length (rule_entries tree) = mapping_entry_count tree
  /\ Forall (fun rule =>
               let '(ancestors, name, info) := rule in
               dict_mem "category" info = false ->
               dict_get "category" (rule_record rule) = Some (JStr (dotted_path ancestors)))
            (rule_entries tree).
Proof.
  split; [ | split].
  - change "" with (dotted_path []) at 1.
    rewrite extract_deprecated_collect, collect_spec.
    reflexivity.
  - unfold rule_entries, mapping_entry_count.
    rewrite length_flat_map_sum. f_equal.
    apply map_ext. intros [ancestors fields]. unfold node_rules. cbn [snd fst].
    destruct (dict_get "deprecatedPatterns" fields) as [[ | | | | | | items] | ];
      try reflexivity.
    now rewrite length_map, mapping_entries_length.
  - apply Forall_forall. intros [[ancestors name] info] _ Habsent.
    now apply make_record_category.
Qed.

Lemma dict_get_app (key : string) (front back : dict) :
  dict_get key (front ++ back) =
  match dict_get key front with
  | Some v => Some v
  | None => dict_get key back
  end.
Proof.
  induction front as [ | [k w] front IH]; cbn [app dict_get]; [reflexivity | ].
  destruct (String.eqb k key); [reflexivity | exact IH].
Qed.

Lemma descend_items_app (front back : dict) (category_path : string) (acc : list dict) :
  descend_items (front ++ back) category_path acc =
  try! mid <- descend_items front category_path acc in
  descend_items back category_path mid.
Proof.
  revert acc.
  induction front as [ | [key value] front IH]; intros acc; cbn [app descend_items rbind].
  - reflexivity.
  - destruct (String.eqb key "deprecatedPatterns"); [apply IH | ].
    destruct (extract_deprecated value (new_path category_path key) acc);
      cbn [rbind]; [apply IH | reflexivity].
Qed.

Lemma mapping_entries_without (before after : dict) (name : string) (value : json) :
  is_dict value = false ->
  mapping_entries (before ++ (name, value) :: after) = mapping_entries (before ++ after).
Proof.
  intros Hvalue. unfold mapping_entries.
  rewrite !flat_map_app. f_equal. cbn [flat_map snd].
  destruct value; try discriminate; reflexivity.
Qed.

Lemma drops_entry_same_records (tree tree' : json) :
  drops_entry tree tree' ->
  forall category_path acc,
    extract_deprecated tree category_path acc = extract_deprecated tree' category_path acc.
Proof.
  induction 1 as [front back before after name value Hvalue
                 | front back key child child' Hkey _ IH];
    intros category_path acc; rewrite !extract_deprecated_obj, !dict_get_app.
  - cbn [dict_get]. rewrite String.eqb_refl.
    assert (Hrest : forall mid,
               descend_items
                 (front ++ ("deprecatedPatterns", JObj (before ++ (name, value) :: after)) :: back)
                 category_path mid =
               descend_items
                 (front ++ ("deprecatedPatterns", JObj (before ++ after)) :: back)
                 category_path mid).
    { intros mid. rewrite !descend_items_app. cbn [descend_items].
      rewrite String.eqb_refl. reflexivity. }
    destruct (dict_get "deprecatedPatterns" front) as [[ | | | | | | items] | ];
      cbn [rbind]; try reflexivity; try apply Hrest.
    rewrite !append_patterns_spec, (mapping_entries_without _ _ _ _ Hvalue).
    apply Hrest.
  - cbn [dict_get]. rewrite Hkey.
    set (own := match dict_get "deprecatedPatterns" front with
                | Some v => Some v
                | None => dict_get "deprecatedPatterns" back
                end).
    assert (Hrest : forall mid,
               descend_items (front ++ (key, child) :: back) category_path mid =
               descend_items (front ++ (key, child') :: back) category_path mid).
    { intros mid. rewrite !descend_items_app.
      destruct (descend_items front category_path mid) as [mid' | e];
        cbn [rbind descend_items]; [ | reflexivity].
      now rewrite Hkey, IH. }
    destruct own as [[ | | | | | | items] | ]; cbn [rbind]; try reflexivity; apply Hrest.
Qed.

Lemma dict_set_nonempty (key : string) (v : json) (d : dict) :
  py_truthy (JObj (dict_set key v d)) = true.
Proof.
  destruct d as [ | [k w] rest]; cbn [dict_set py_truthy]; [reflexivity | ].
  destruct (String.eqb k key); reflexivity.
Qed.

(** C10.  Taking one entry whose value is not a mapping out of a
    [deprecatedPatterns] map changes nothing: the flattener gives the same
    result, records and failures alike, whatever the path and the records
    gathered so far, and the matcher gives the same findings on every
    content. *)
Theorem text_entry_never_contributes (tree tree' : json) (Hdrop : drops_entry tree tree') :
  (forall category_path acc,
      extract_deprecated tree category_path acc = extract_deprecated tree' category_path acc)
  /\ (forall content file_path intelligence,
         dict_get "intelligence" intelligence = Some tree ->
         check_deprecated_patterns content file_path intelligence =
         check_deprecated_patterns content file_path
           (dict_set "intelligence" tree' intelligence)).
Proof.
  split.
  - now apply drops_entry_same_records.
  - intros content file_path intelligence Hget.
    unfold check_deprecated_patterns, dict_get_default.
    rewrite dict_set_nonempty, !dict_mem_get, dict_get_set_same, Hget.
    destruct intelligence as [ | entry rest]; [discriminate | ].
    cbn [py_truthy negb orb].
    now rewrite (drops_entry_same_records _ _ Hdrop).
Qed.

(** ** The matcher *)

Lemma check_deprecated_patterns_flattened (content : string) (file_path : path)
    (intelligence : dict) :
  check_deprecated_patterns content file_path intelligence =
  try! all_deprecated <- flattened_rules intelligence in
  match_loop all_deprecated content [].
Proof.
  unfold check_deprecated_patterns, flattened_rules.
  destruct (negb (py_truthy (JObj intelligence)) || negb (dict_mem "intelligence" intelligence));
    reflexivity.
Qed.

(** The inner loop reports the first variant that occurs, and only that one. *)
Lemma search_loop_first_hit (search_patterns : list string) (content : string)
    (deprecated : dict) (errors : list string) :
  search_loop search_patterns content deprecated errors =
  match find (fun search => str_in search content) search_patterns with
  | Some search =>
      try! error_msg <- finding_message deprecated search in Ok (errors ++ [error_msg])
  | None => Ok errors
  end.
Proof.
  induction search_patterns as [ | search rest IH]; cbn [search_loop find]; [reflexivity | ].
  destruct (str_in search content); [reflexivity | exact IH].
Qed.

Lemma find_existsb {A : Type} (f : A -> bool) (l : list A) :
  existsb f l = match find f l with Some _ => true | None => false end.
Proof.
  induction l as [ | a l IH]; cbn [existsb find]; [reflexivity | ].
  destruct (f a); [reflexivity | exact IH].
Qed.

Lemma match_loop_length (all_deprecated : list dict) (content : string) :
  forall errors errors',
    match_loop all_deprecated content errors = Ok errors' ->
    List.length errors' =
    List.length errors + List.length (filter (rule_hits content) all_deprecated).
Proof.
  induction all_deprecated as [ | deprecated rest IH]; intros errors errors';
    cbn [match_loop filter].
  - intros [= <-]. cbn. lia.
  - unfold rule_hits at 1.
    destruct (dict_get_default "pattern" (JStr "") deprecated)
      as [ | b | n | x | p | items | fields] eqn:Hpattern; cbn [py_truthy negb];
      try (intros Hrest; apply IH in Hrest; exact Hrest).
    + destruct b; cbn [negb]; [discriminate | apply IH].
    + destruct (negb (Z.eqb n 0)); cbn [negb]; [discriminate | apply IH].
    + destruct (negb (PrimFloat.eqb x 0)); cbn [negb]; [discriminate | apply IH].
    + destruct (String.eqb p ""); cbn [negb andb]; [apply IH | ].
      rewrite search_loop_first_hit, find_existsb.
      destruct (find (fun search => str_in search content) (search_variants p)) as [search | ].
      * destruct (finding_message deprecated search) as [error_msg | e];
          cbn [rbind]; [ | discriminate].
        intros Hrest. apply IH in Hrest. rewrite Hrest, length_app. cbn. lia.
      * cbn [rbind]. apply IH.
    + destruct items; cbn [negb]; [apply IH | discriminate].
    + destruct fields; cbn [negb]; [apply IH | discriminate].
Qed.

Lemma finding_message_total (deprecated : dict) (search : string) :
  rule_well_typed deprecated = true ->
  exists error_msg, finding_message deprecated search = Ok error_msg.
Proof.
  unfold rule_well_typed, finding_message. intros Htyped.
  apply andb_prop in Htyped as [Htyped Hname].
  apply andb_prop in Htyped as [_ Hseverity].
  destruct (dict_get_default "severity" (JStr "warning") deprecated); try discriminate.
  rewrite dict_mem_get in Hname.
  destruct (dict_get "name" deprecated); [ | discriminate].
  eexists. reflexivity.
Qed.

Lemma match_loop_total (all_deprecated : list dict) (content : string) :
  forallb rule_well_typed all_deprecated = true ->
  forall errors, exists errors', match_loop all_deprecated content errors = Ok errors'.
Proof.
  induction all_deprecated as [ | deprecated rest IH]; cbn [forallb match_loop].
  - intros _ errors. now exists errors.
  - intros Hall errors. apply andb_prop in Hall as [Htyped Hrest].
    specialize (IH Hrest).
    pose proof (finding_message_total deprecated) as Hmessage.
    specialize (fun search => Hmessage search Htyped).
    unfold rule_well_typed in Htyped.
    apply andb_prop in Htyped as [Htyped _]. apply andb_prop in Htyped as [Hpattern _].
    destruct (negb (py_truthy (dict_get_default "pattern" (JStr "") deprecated))) eqn:Hfalsy.
    + apply IH.
    + rewrite orb_false_r in Hpattern.
      destruct (dict_get_default "pattern" (JStr "") deprecated); try discriminate.
      rewrite search_loop_first_hit.
      destruct (find (fun search => str_in search content) (search_variants s)) as [search | ].
      * destruct (Hmessage search) as [error_msg ->]. cbn [rbind]. apply IH.
      * cbn [rbind]. apply IH.
Qed.

(** C1, as amended.  The [break] leaves the loop over the variants of one
    rule, not the loop over the rules.  For one rule, the first variant that
    occurs in the content is the one reported, and nothing more is reported
    for that rule.  Over all rules, whenever the matcher returns, it returns
    exactly one finding for every rule record that hits the content, so
    several rules whose patterns occur give several findings; and it does
    return when every record is well typed. *)
Theorem matcher_one_finding_per_hitting_rule (content : string) (file_path : path)
    (intelligence : dict) :
  (forall search_patterns deprecated errors,
      search_loop search_patterns content deprecated errors =
      match find (fun search => str_in search content) search_patterns with
      | Some search =>
          try! error_msg <- finding_message deprecated search in Ok (errors ++ [error_msg])
      | None => Ok errors
      end)
  /\ match flattened_rules intelligence with
     | Raise e => check_deprecated_patterns content file_path intelligence = Raise e
     | Ok all_deprecated =>
         match check_deprecated_patterns content file_path intelligence with
         | Ok findings =>
             List.length findings = List.length (filter (rule_hits content) all_deprecated)
         | Raise _ => forallb rule_well_typed all_deprecated = false
         end
     end.
Proof.
  split; [intros; apply search_loop_first_hit | ].
  rewrite check_deprecated_patterns_flattened.
  destruct (flattened_rules intelligence) as [all_deprecated | e]; cbn [rbind];
    [ | reflexivity].
  destruct (match_loop all_deprecated content []) as [findings | e] eqn:Hloop.
  - apply match_loop_length in Hloop. exact Hloop.
  - destruct (forallb rule_well_typed all_deprecated) eqn:Htyped; [ | reflexivity].
    destruct (match_loop_total all_deprecated content Htyped []) as [findings Hok].
    congruence.
Qed.

(** ** The structural validator *)

(** On a dict the structural validator never raises, and its messages are
    those of the four checks, in source order. *)
Lemma validate_devcontainer_structure_obj (config : dict) (file_path : path)
    (intelligence : dict) :
  validate_devcontainer_structure (JObj config) file_path intelligence =
  Ok (missing_messages config ++ name_messages config ++ image_messages config
      ++ customizations_messages config intelligence).
Proof.
  unfold validate_devcontainer_structure.
  assert (Hmissing : required_fields_loop REQUIRED_DEVCONTAINER_FIELDS (JObj config) [] =
                     Ok (missing_messages config)).
  { unfold missing_messages.
    cbn [REQUIRED_DEVCONTAINER_FIELDS required_fields_loop py_contains rbind filter].
    destruct (dict_mem "name" config); destruct (dict_mem "image" config); reflexivity. }
  assert (Hname : forall errors,
             check_name (JObj config) errors = Ok (errors ++ name_messages config)).
  { intros errors. unfold check_name, name_messages. cbn [py_contains py_getitem rbind].
    rewrite dict_mem_get.
    destruct (dict_get "name" config) as [name | ]; cbn [rbind];
      [destruct (not_nonempty_string name) | ]; now rewrite ?app_nil_r. }
  assert (Himage : forall errors,
             check_image (JObj config) errors = Ok (errors ++ image_messages config)).
  { intros errors. unfold check_image, image_messages, not_nonempty_string.
    cbn [py_contains py_getitem rbind].
    rewrite dict_mem_get.
    destruct (dict_get "image" config) as [[ | | | | img | | ] | ]; cbn [rbind py_truthy negb];
      rewrite ?app_nil_r; try reflexivity.
    destruct (String.eqb (strip img) ""); cbn [negb]; [reflexivity | ].
    destruct (negb (str_in ":" img) && negb (str_in "/" img)); now rewrite ?app_nil_r. }
  assert (Hcust : forall errors,
             check_customizations (JObj config) intelligence errors =
             Ok (errors ++ customizations_messages config intelligence)).
  { intros errors. unfold check_customizations, customizations_messages.
    cbn [py_contains py_getitem rbind].
    rewrite dict_mem_get.
    destruct (dict_get "customizations" config) as [[ | | | | | | cust] | ]; cbn [rbind];
      rewrite ?app_nil_r; try reflexivity.
    destruct (dict_get "vscode" cust); now rewrite ?app_nil_r. }
  rewrite Hmissing. cbn [rbind]. rewrite Hname. cbn [rbind]. rewrite Himage. cbn [rbind].
  rewrite Hcust. now rewrite <- !app_assoc.
Qed.

Lemma prefix_app (a b : string) : String.prefix a (a ++ b) = true.
Proof.
  induction a as [ | ch a IH]; cbn.
  - now destruct b.
  - destruct (ascii_dec ch ch); [exact IH | congruence].
Qed.

Lemma is_missing_field_message_missing (field : string) :
  is_missing_field_message (missing_field_message field) = true.
Proof.
  apply (prefix_app "Missing required field: '" (field ++ "'")).
Qed.

Lemma vscode_messages_not_counted (vscode : json) (intelligence : dict) :
  filter is_missing_field_message (validate_vscode_settings vscode intelligence) = []
  /\ filter is_invalid_image_message (validate_vscode_settings vscode intelligence) = [].
Proof.
  unfold validate_vscode_settings.
  destruct vscode as [ | | | | | | vs]; try (split; reflexivity).
  destruct (dict_get_default "settings" (JObj []) vs) as [ | | | | | | settings];
    try (split; reflexivity).
  destruct (dict_get "rust-analyzer.checkOnSave" settings) as [[ | [ | ] | | | | | ] | ];
    split; reflexivity.
Qed.

Lemma customizations_messages_not_counted (config intelligence : dict) :
  filter is_missing_field_message (customizations_messages config intelligence) = []
  /\ filter is_invalid_image_message (customizations_messages config intelligence) = [].
Proof.
  unfold customizations_messages.
  destruct (dict_get "customizations" config) as [[ | | | | | | cust] | ];
    try (split; reflexivity).
  destruct (dict_get "vscode" cust) as [vscode | ]; [ | split; reflexivity].
  apply vscode_messages_not_counted.
Qed.

Lemma name_messages_not_counted (config : dict) :
  filter is_missing_field_message (name_messages config) = []
  /\ filter is_invalid_image_message (name_messages config) = [].
Proof.
  unfold name_messages.
  destruct (dict_get "name" config) as [name | ]; [ | split; reflexivity].
  destruct (not_nonempty_string name); split; reflexivity.
Qed.

Lemma missing_messages_counted (config : dict) :
  filter is_missing_field_message (missing_messages config) = missing_messages config
  /\ filter is_invalid_image_message (missing_messages config) = [].
Proof.
  unfold missing_messages. cbn [REQUIRED_DEVCONTAINER_FIELDS filter].
  destruct (negb (dict_mem "name" config)); destruct (negb (dict_mem "image" config));
    cbn [map filter]; rewrite ?is_missing_field_message_missing; split; reflexivity.
Qed.


Lemma image_messages_missing_not_counted (config : dict) :
  filter is_missing_field_message (image_messages config) = [].
Proof.
  unfold image_messages.
  destruct (dict_get "image" config) as [[ | | | | img | | ] | ]; try reflexivity.
  destruct (String.eqb (strip img) ""); [reflexivity | ].
  destruct (negb (str_in ":" img) && negb (str_in "/" img)); reflexivity.
Qed.

(** C5.  On every devcontainer object the structural validator returns, and
    the missing-field messages among what it returns are exactly one for
    each required field the object lacks, [name] before [image]; the object
    that holds only the image [notanimage] gets the two messages the
    specification names. *)
Theorem one_message_per_missing_field (config : dict) (file_path : path)
    (intelligence : dict) :
  (exists errors,
      validate_devcontainer_structure (JObj config) file_path intelligence = Ok errors
      /\ filter is_missing_field_message errors =
         map missing_field_message
           (filter (fun field => negb (dict_mem field config)) REQUIRED_DEVCONTAINER_FIELDS))
  /\ validate_devcontainer_structure (JObj [("image", JStr "notanimage")])
       file_path intelligence =
     Ok ["Missing required field: 'name'";
         "Field 'image' appears to be invalid Docker image format: notanimage"].
Proof.
  split; [ | reflexivity].
  eexists. split; [apply validate_devcontainer_structure_obj | ].
  rewrite !filter_app.
  rewrite (proj1 (missing_messages_counted config)),
    (proj1 (name_messages_not_counted config)),
    image_messages_missing_not_counted,
    (proj1 (customizations_messages_not_counted config intelligence)).
  now rewrite !app_nil_r.
Qed.


(** ** Where a read error can come from *)

Lemma no_read_error_rbind {A B : Type} (r : result A) (k : A -> result B) :
  no_read_error r -> (forall a, no_read_error (k a)) -> no_read_error (rbind r k).
Proof.
  intros Hr Hk. destruct r as [a | e]; cbn [rbind]; [apply Hk | exact Hr].
Qed.

Lemma no_read_error_py_contains (key : string) (config : json) :
  no_read_error (py_contains key config).
Proof. destruct config; exact I. Qed.

Lemma no_read_error_py_getitem (config : json) (key : string) :
  no_read_error (py_getitem config key).
Proof.
  destruct config as [ | | | | | | d]; try exact I.
  cbn [py_getitem]. destruct (dict_get key d); exact I.
Qed.

Lemma no_read_error_raise {A : Type} (r : result A) (e : exn) :
  no_read_error r -> r = Raise e -> not_read_exn e.
Proof.
  intros Hr ->. destruct e; exact Hr || exact I.
Qed.

Ltac no_read_error_step :=
  repeat lazymatch goal with
    | |- no_read_error (rbind _ _) => apply no_read_error_rbind; [ | intros ? ]
    | |- no_read_error (py_contains _ _) => apply no_read_error_py_contains
    | |- no_read_error (py_getitem _ _) => apply no_read_error_py_getitem
    | |- no_read_error (Ok _) => exact I
    | |- no_read_error (match ?x with _ => _ end) => destruct x
    end.

(** The validators and the matcher read no file: they raise no read error. *)
Lemma no_read_error_structure (config : json) (file_path : path) (intelligence : dict) :
  no_read_error (validate_devcontainer_structure config file_path intelligence).
Proof.
  unfold validate_devcontainer_structure.
  apply no_read_error_rbind; [ | intros errors1].
  { generalize (@nil string).
    induction REQUIRED_DEVCONTAINER_FIELDS as [ | field rest IH]; intros errors;
      cbn [required_fields_loop]; no_read_error_step; apply IH. }
  unfold check_name, check_image, check_customizations. no_read_error_step.
Qed.

Lemma no_read_error_matcher (content : string) (file_path : path) (intelligence : dict) :
  no_read_error (check_deprecated_patterns content file_path intelligence).
Proof.
  rewrite check_deprecated_patterns_flattened.
  apply no_read_error_rbind.
  - unfold flattened_rules.
    destruct (negb (py_truthy (JObj intelligence)) || negb (dict_mem "intelligence" intelligence));
      [exact I | ].
    change "" with (dotted_path []) at 2.
    rewrite extract_deprecated_collect, collect_spec.
    destruct (forallb node_ok _); exact I.
  - intros all_deprecated. generalize (@nil string).
    induction all_deprecated as [ | deprecated rest IH]; intros errors;
      cbn [match_loop]; [exact I | ].
    destruct (negb (py_truthy (dict_get_default "pattern" (JStr "") deprecated)));
      [apply IH | ].
    destruct (dict_get_default "pattern" (JStr "") deprecated); try exact I.
    apply no_read_error_rbind; [ | intros errors'; apply IH].
    rewrite search_loop_first_hit.
    destruct (find _ _) as [search | ]; [ | exact I].
    apply no_read_error_rbind; [ | intros; exact I].
    unfold finding_message.
    destruct (dict_get_default "severity" (JStr "warning") deprecated); try exact I.
    destruct (dict_get "name" deprecated); exact I.
Qed.

(** ** The driver *)

Lemma ensures_ret {C : exn -> Prop} {A : Type} (a : A) (s : state) (Q : A -> state -> Prop) :
  Q a s -> ensures C (ret a) s Q.
Proof. exact (fun H => H). Qed.

Lemma ensures_bind {C : exn -> Prop} {A B : Type} (m : prog A) (k : A -> prog B) (s : state)
    (Q : B -> state -> Prop) :
  ensures C m s (fun a s' => ensures C (k a) s' Q) -> ensures C (bind m k) s Q.
Proof.
  unfold ensures, bind. destruct (m s); auto.
Qed.

Lemma ensures_print {C : exn -> Prop} (line : string) (s : state) (Q : unit -> state -> Prop) :
  Q tt {| clock := clock s; stdout := stdout s ++ [line] |} -> ensures C (print line) s Q.
Proof. exact (fun H => H). Qed.

Lemma ensures_observe {C : exn -> Prop} (s : state) (Q : filesystem -> state -> Prop) :
  Q (env (clock s)) {| clock := S (clock s); stdout := stdout s |} -> ensures C observe s Q.
Proof. exact (fun H => H). Qed.

Lemma ensures_lift {C : exn -> Prop} {A : Type} (r : result A) (s : state)
    (Q : A -> state -> Prop) :
  (forall a, r = Ok a -> Q a s) -> (forall e, r = Raise e -> C e) ->
  ensures C (lift r) s Q.
Proof.
  unfold ensures, lift. destruct r; auto.
Qed.

Lemma ensures_weaken {C : exn -> Prop} {A : Type} (m : prog A) (s : state)
    (Q Q' : A -> state -> Prop) :
  (forall a s', Q a s' -> Q' a s') -> ensures C m s Q -> ensures C m s Q'.
Proof.
  unfold ensures. destruct (m s); auto.
Qed.

Ltac step_ensures :=
  repeat lazymatch goal with
    | |- ensures _ (bind _ _) _ _ => apply ensures_bind
    | |- ensures _ (print _) _ _ => apply ensures_print
    | |- ensures _ observe _ _ => apply ensures_observe
    | |- ensures _ (ret _) _ _ => apply ensures_ret
    end.

(** A loop whose body keeps an invariant of the counters keeps it. *)
Lemma ensures_for_each {C : exn -> Prop} (step : path -> counters -> prog counters)
    (I : counters -> Prop) :
  (forall file c s, I c -> ensures C (step file c) s (fun c' _ => I c')) ->
  forall files c s, I c -> ensures C (for_each step files c) s (fun c' _ => I c').
Proof.
  intros Hstep files.
  induction files as [ | file rest IH]; intros c s Hc; cbn [for_each].
  - now apply ensures_ret.
  - apply ensures_bind.
    apply (ensures_weaken _ _ (fun c' _ => I c')); [ | now apply Hstep].
    intros c' s' Hc'. now apply IH.
Qed.

Lemma ensures_section {C : exn -> Prop} (title : string) (step : path -> counters -> prog counters)
    (I : counters -> Prop) :
  (forall file c s, I c -> ensures C (step file c) s (fun c' _ => I c')) ->
  forall files c s, I c -> ensures C (section title step files c) s (fun c' _ => I c').
Proof.
  intros Hstep files c s Hc. unfold section.
  destruct files as [ | file rest]; [now apply ensures_ret | ].
  step_ensures. now apply ensures_for_each.
Qed.

(** What the three loops over messages do to the counters. *)
Lemma report_devcontainer_counts {C : exn -> Prop} (all_errors : list string) :
  forall c s,
    ensures C (report_devcontainer all_errors c) s (fun c' _ =>
      total_errors c' =
        total_errors c
        + List.length (filter (fun error => str_in "[ERROR]" error
                                            || negb (str_in "[WARNING]" error)) all_errors)
      /\ total_warnings c' =
         total_warnings c
         + List.length (filter (fun error => negb (str_in "[ERROR]" error)
                                             && str_in "[WARNING]" error) all_errors)
      /\ total_validated c' = total_validated c).
Proof.
  induction all_errors as [ | error rest IH]; intros c s; cbn [report_devcontainer filter].
  - apply ensures_ret. cbn. lia.
  - destruct (str_in "[ERROR]" error); [ | destruct (str_in "[WARNING]" error)];
      cbn [orb andb negb]; step_ensures;
      (eapply ensures_weaken; [ | apply IH]); cbn; intros; lia.
Qed.

Lemma report_tailwind_counts {C : exn -> Prop} (errors : list string) :
  forall c s,
    ensures C (report_tailwind errors c) s (fun c' _ =>
      total_errors c' =
        total_errors c + List.length (filter (str_in "[ERROR]") errors)
      /\ total_warnings c' =
         total_warnings c
         + List.length (filter (fun error => negb (str_in "[ERROR]" error)) errors)
      /\ total_validated c' = total_validated c).
Proof.
  induction errors as [ | error rest IH]; intros c s; cbn [report_tailwind filter].
  - apply ensures_ret. cbn. lia.
  - destruct (str_in "[ERROR]" error); cbn [negb]; step_ensures;
      (eapply ensures_weaken; [ | apply IH]); cbn; intros; lia.
Qed.

Lemma report_eslint_counts {C : exn -> Prop} (errors : list string) :
  forall c s,
    ensures C (report_eslint errors c) s (fun c' _ =>
      total_errors c' =
        total_errors c + List.length (filter (str_in "[ERROR]") errors)
      /\ total_warnings c' =
         total_warnings c
         + List.length (filter (fun error => negb (str_in "[ERROR]" error)) errors)
      /\ total_validated c' = total_validated c).
Proof.
  induction errors as [ | error rest IH]; intros c s; cbn [report_eslint filter].
  - apply ensures_ret. cbn. lia.
  - destruct (str_in "[ERROR]" error); cbn [negb]; step_ensures;
      (eapply ensures_weaken; [ | apply IH]); cbn; intros; lia.
Qed.

(** A message with neither marker: an error in the devcontainer loop, a
    warning in the Tailwind loop and in the ESLint loop. *)
Lemma unmarked_message_levels (error : string) (c : counters) (s : state) :
  str_in "[ERROR]" error = false ->
  str_in "[WARNING]" error = false ->
  returned (report_devcontainer [error] c s) = Some (add_error c)
  /\ returned (report_tailwind [error] c s) = Some (add_warning c)
  /\ returned (report_eslint [error] c s) = Some (add_warning c).
Proof.
  intros Herror Hwarning.
  cbn [report_devcontainer report_tailwind report_eslint].
  rewrite Herror, Hwarning. repeat split; reflexivity.
Qed.

Lemma path_compare_eq (p q : path) : path_compare p q = Eq -> p = q.
Proof.
  revert q.
  induction p as [ | a p IH]; intros [ | b q]; cbn [path_compare]; try discriminate.
  - reflexivity.
  - destruct (String.compare a b) eqn:Hab; try discriminate.
    apply String.compare_eq_iff in Hab. intros Hpq. f_equal; auto.
Qed.

Lemma insert_sorted_In (x p : path) (sorted : list path) :
  x = p \/ In x sorted -> In x (insert_sorted p sorted).
Proof.
  induction sorted as [ | q rest IH]; cbn [insert_sorted].
  - intros [-> | []]. now left.
  - destruct (path_compare p q) eqn:Hpq.
    + apply path_compare_eq in Hpq. subst q. intros [-> | Hin]; [now left | exact Hin].
    + intros [-> | Hin]; [now left | now right].
    + intros [-> | [-> | Hin]].
      * right. apply IH. now left.
      * now left.
      * right. apply IH. now right.
Qed.

(** [sorted(set(...))] loses no path. *)
Lemma sorted_set_In (x : path) (paths : list path) :
  In x paths -> In x (sorted_set paths).
Proof.
  induction paths as [ | p rest IH]; cbn [sorted_set fold_right]; [easy | ].
  intros [-> | Hin]; apply insert_sorted_In; [now left | right; now apply IH].
Qed.

Lemma skipn_last_component (dirs : list string) (name : string) :
  skipn (List.length (dirs ++ [name]) - List.length [Exact name]) (dirs ++ [name]) = [name].
Proof.
  rewrite length_app. cbn [List.length].
  replace (List.length dirs + 1 - 1) with (List.length dirs) by lia.
  induction dirs as [ | d dirs IH]; [reflexivity | exact IH].
Qed.

(** A file with the given name, anywhere in the tree, is found by [rglob]. *)
Lemma rglob_name_In (dirs : list string) (name : string) (entries : list path) :
  In (dirs ++ [name]) entries -> In (dirs ++ [name]) (rglob [Exact name] entries).
Proof.
  intros Hin. unfold rglob. apply filter_In. split; [exact Hin | ].
  rewrite skipn_last_component. cbn [glob_match segment_match].
  now rewrite String.eqb_refl.
Qed.

Lemma summary_exits (c : counters) (s : state) :
  exists s', summary c s = Exited (if Nat.eqb (total_errors c) 0 then 0%Z else 1%Z) s'.
Proof.
  unfold summary, bind, print, sys_exit.
  destruct (Nat.eqb (total_errors c) 0); eexists; reflexivity.
Qed.

Lemma tailwind_findings_errors (content : string) :
  filter (str_in "[ERROR]") (tailwind_findings content) =
  if str_in "purge:" content then [purge_message] else [].
Proof.
  unfold tailwind_findings. rewrite filter_app.
  destruct (str_in "module.exports" content && str_in "theme:" content);
    destruct (str_in "purge:" content); reflexivity.
Qed.

Lemma ensures_print_valid {C : exn -> Prop} (c : counters) (s : state)
    (Q : counters -> state -> Prop) :
  (forall s', Q (add_validated c) s') -> ensures C (print_valid c) s Q.
Proof.
  intros HQ. unfold print_valid. step_ensures. apply HQ.
Qed.

(** Neither a Tailwind step nor an ESLint step raises, exits or lowers the
    number of errors. *)
Lemma tailwind_step_monotone {C : exn -> Prop} (intelligence : dict) (file : path)
    (c : counters) (s : state) :
  ensures C (tailwind_step intelligence file c) s
    (fun c' _ => total_errors c <= total_errors c').
Proof.
  unfold tailwind_step, validate_tailwind_config, read_text. step_ensures.
  assert (Hreport : forall errors s',
             ensures C (match errors with
                      | [] => print_valid c
                      | _ => report_tailwind errors c
                      end) s' (fun c' _ => total_errors c <= total_errors c')).
  { intros errors s'. destruct errors as [ | error rest].
    - apply ensures_print_valid. intros _. cbn. lia.
    - eapply ensures_weaken; [ | apply report_tailwind_counts]. cbn. intros; lia. }
  destruct (fs_read (env (clock _)) file) as [content | err]; step_ensures.
  - apply Hreport.
  - apply (Hreport [fstr ["Error reading Tailwind config: "; err]]).
Qed.

Lemma eslint_step_monotone {C : exn -> Prop} (intelligence : dict) (file : path)
    (c : counters) (s : state) :
  ensures C (eslint_step intelligence file c) s
    (fun c' _ => total_errors c <= total_errors c').
Proof.
  unfold eslint_step. step_ensures.
  destruct (validate_eslint_config file intelligence) as [ | error rest].
  - apply ensures_print_valid. intros _. cbn. lia.
  - eapply ensures_weaken; [ | apply report_eslint_counts]. cbn. intros; lia.
Qed.

(** A Tailwind config whose text holds [purge:] when it is read adds an
    error. *)
Lemma tailwind_step_purge {C : exn -> Prop} (intelligence : dict) (file : path)
    (c : counters) (s : state) :
  (forall n, exists content,
      fs_read (env n) file = ReadOk content /\ str_in "purge:" content = true) ->
  ensures C (tailwind_step intelligence file c) s
    (fun c' _ => total_errors c < total_errors c').
Proof.
  intros Hpurge.
  unfold tailwind_step, validate_tailwind_config, read_text. step_ensures.
  destruct (Hpurge (clock s)) as [content [Hread Hcontent]].
  cbn [clock]. rewrite Hread. step_ensures.
  pose proof (tailwind_findings_errors content) as Herrors. rewrite Hcontent in Herrors.
  destruct (tailwind_findings content) as [ | error rest] eqn:Hfindings;
    [discriminate | ].
  eapply ensures_weaken; [ | apply report_tailwind_counts].
  cbn beta. intros c' _ [Hc' _]. rewrite Herrors in Hc'. cbn in Hc'. lia.
Qed.

Lemma ensures_for_each_hit {C : exn -> Prop} (step : path -> counters -> prog counters)
    (hit : path) :
  (forall file c s, ensures C (step file c) s (fun c' _ => total_errors c <= total_errors c')) ->
  (forall c s, ensures C (step hit c) s (fun c' _ => total_errors c < total_errors c')) ->
  forall files c s,
    In hit files ->
    ensures C (for_each step files c) s (fun c' _ => 1 <= total_errors c').
Proof.
  intros Hmono Hhit files.
  induction files as [ | file rest IH]; intros c s Hin; [destruct Hin | ].
  cbn [for_each]. apply ensures_bind.
  destruct Hin as [-> | Hin].
  - eapply ensures_weaken; [ | apply Hhit].
    cbn beta. intros c' s' Hc'.
    apply (ensures_for_each step (fun c0 => 1 <= total_errors c0)); [ | lia].
    intros file0 c0 s0 Hc0. eapply ensures_weaken; [ | apply Hmono].
    cbn beta. intros; lia.
  - eapply ensures_weaken; [ | apply Hmono].
    cbn beta. intros c' s' _. now apply IH.
Qed.

(** The loader always returns: every failure is caught and answered with
    the empty dict. *)
Lemma load_framework_intelligence_returns {C : exn -> Prop} (s : state)
    (Q : dict -> state -> Prop) :
  (forall intelligence s', Q intelligence s') ->
  ensures C load_framework_intelligence s Q.
Proof.
  intros HQ.
  unfold load_framework_intelligence, path_exists, read_text. step_ensures.
  destruct (negb _); step_ensures; [apply HQ | ].
  destruct (fs_read _ _) as [text | err]; step_ensures; [ | apply HQ].
  destruct (json_loads text) as [[ | | | | | | intelligence] | err];
    step_ensures; apply HQ.
Qed.

Lemma find_config_files_returns {C : exn -> Prop} (s : state) (Q : config_files -> state -> Prop) :
  (forall found s', find_config_files s = Done found s' -> Q found s') ->
  ensures C find_config_files s Q.
Proof.
  intros HQ. unfold ensures.
  destruct (find_config_files s) as [found s' | e s' | code s'] eqn:Hfound;
    [now apply HQ | discriminate Hfound | discriminate Hfound].
Qed.

(** A devcontainer step never leaves through [sys.exit].  What can end it
    is an exception of the structural validator or of the matcher, which is
    no read error, or the failure of the second [open] after the first one
    has succeeded. *)
Lemma devcontainer_step_ensures {C : exn -> Prop} (intelligence : dict) (file : path)
    (c : counters) (s : state) :
  (forall e, not_read_exn e -> C e) ->
  (forall text err,
      fs_read (env (clock s)) file = ReadOk text ->
      fs_read (env (S (clock s))) file = ReadFail err ->
      C (ReadError err)) ->
  ensures C (devcontainer_step intelligence file c) s (fun _ _ => True).
Proof.
  intros Hpure Hsecond.
  unfold devcontainer_step, validate_json_file, read_text. step_ensures.
  cbn [clock].
  destruct (fs_read (env (clock s)) file) as [text | err] eqn:Hfirst;
    [destruct (json_loads text) as [config | err] | ]; step_ensures;
    cbn [negb]; step_ensures; try exact I.
  apply ensures_lift;
    [ | intros e He; apply Hpure;
        exact (no_read_error_raise _ e (no_read_error_structure _ _ _) He)].
  intros structure_errors _. step_ensures. cbn [clock].
  destruct (fs_read (env (S (clock s))) file) as [raw_content | err] eqn:Hagain.
  - step_ensures.
    apply ensures_lift;
      [ | intros e He; apply Hpure;
          exact (no_read_error_raise _ e (no_read_error_matcher _ _ _) He)].
    intros deprecated_errors _.
    destruct (structure_errors ++ deprecated_errors) as [ | error rest].
    + now apply ensures_print_valid.
    + eapply ensures_weaken; [ | apply report_devcontainer_counts]. now intros.
  - apply ensures_lift; [discriminate | ].
    intros e [= <-]. now apply (Hsecond text err).
Qed.

Lemma devcontainer_step_no_exit (intelligence : dict) (file : path) (c : counters)
    (s : state) :
  ensures any_exn (devcontainer_step intelligence file c) s (fun _ _ => True).
Proof.
  apply devcontainer_step_ensures; intros; exact I.
Qed.

(** The same for the scan as a whole. *)
Lemma scan_files_ensures {C : exn -> Prop} (intelligence : dict) (s : state) :
  (forall e, not_read_exn e -> C e) ->
  (forall file n text err,
      fs_read (env n) file = ReadOk text ->
      fs_read (env (S n)) file = ReadFail err ->
      C (ReadError err)) ->
  ensures C (scan_files intelligence) s (fun _ _ => True).
Proof.
  intros Hpure Hsecond.
  unfold scan_files. step_ensures.
  apply find_config_files_returns. intros found s' _. step_ensures.
  eapply ensures_weaken;
    [ | apply (ensures_section _ _ (fun _ => True)); [ | exact I]].
  - intros c1 s1 _. step_ensures.
    eapply ensures_weaken;
      [ | apply (ensures_section _ _ (fun _ => True)); [ | exact I]].
    + intros c2 s2 _.
      apply (ensures_section _ _ (fun _ => True)); [ | exact I].
      intros file c0 s0 _. eapply ensures_weaken; [ | apply eslint_step_monotone]. now intros.
    + intros file c0 s0 _. eapply ensures_weaken; [ | apply tailwind_step_monotone]. now intros.
  - intros file c0 s0 _. apply devcontainer_step_ensures; [exact Hpure | ].
    intros text err. apply Hsecond.
Qed.

Lemma scan_ensures {C : exn -> Prop} (s : state) :
  (forall e, not_read_exn e -> C e) ->
  (forall file n text err,
      fs_read (env n) file = ReadOk text ->
      fs_read (env (S n)) file = ReadFail err ->
      C (ReadError err)) ->
  ensures C scan s (fun _ _ => True).
Proof.
  intros Hpure Hsecond. unfold scan. step_ensures.
  apply load_framework_intelligence_returns. intros intelligence s'.
  now apply scan_files_ensures.
Qed.

Lemma scan_no_exit (s : state) : ensures any_exn scan s (fun _ _ => True).
Proof.
  apply scan_ensures; intros; exact I.
Qed.

(** A Tailwind config that is in the tree at every observation, outside
    [node_modules], is among the files discovery returns. *)
Lemma find_config_files_tailwind {C : exn -> Prop} (dirs : list string) (name : string)
    (s : state) :
  In name tailwind_names ->
  (forall n, In (dirs ++ [name]) (fs_entries (env n))) ->
  no_node_modules (dirs ++ [name]) = true ->
  ensures C find_config_files s (fun found _ => In (dirs ++ [name]) (cf_tailwind found)).
Proof.
  intros Hname Hthere Hclean. unfold find_config_files. step_ensures.
  cbn [cf_tailwind]. apply sorted_set_In. rewrite !in_app_iff.
  assert (Hfound : forall n,
             In (dirs ++ [name])
                (filter no_node_modules (rglob [Exact name] (fs_entries (env n))))).
  { intros n. apply filter_In. split; [ | exact Hclean]. now apply rglob_name_In. }
  destruct Hname as [<- | [<- | [<- | []]]]; auto.
Qed.

(** With such a file that holds [purge:] whenever it is read, a scan that
    returns has counted an error. *)
Lemma scan_counts_purge (dirs : list string) (name : string) (s : state) :
  In name tailwind_names ->
  (forall n, In (dirs ++ [name]) (fs_entries (env n))) ->
  no_node_modules (dirs ++ [name]) = true ->
  (forall n, exists content,
      fs_read (env n) (dirs ++ [name]) = ReadOk content /\ str_in "purge:" content = true) ->
  ensures any_exn scan s (fun c _ => 1 <= total_errors c).
Proof.
  intros Hname Hthere Hclean Hpurge. unfold scan. step_ensures.
  apply load_framework_intelligence_returns. intros intelligence s0.
  unfold scan_files. step_ensures.
  eapply ensures_weaken; [ | now apply (find_config_files_tailwind dirs name)].
  cbn beta. intros found s1 Hfound. step_ensures.
  eapply ensures_weaken;
    [ | apply (ensures_section _ _ (fun _ => True)); [ | exact I]].
  - intros c1 s2 _. step_ensures.
    apply (ensures_weaken _ _ (fun c' _ => 1 <= total_errors c')).
    + intros c2 s3 Hc2.
      apply (ensures_section _ _ (fun c' => 1 <= total_errors c')); [ | exact Hc2].
      intros file c0 s4 Hc0. eapply ensures_weaken; [ | apply eslint_step_monotone].
      cbn beta. intros; lia.
    + unfold section. destruct (cf_tailwind found) as [ | file rest] eqn:Hfiles;
        [destruct Hfound | ].
      step_ensures.
      apply (ensures_for_each_hit _ (dirs ++ [name])); [ | | exact Hfound].
      * intros. apply tailwind_step_monotone.
      * intros. now apply tailwind_step_purge.
  - intros file c0 s2 _. apply devcontainer_step_no_exit.
Qed.

(** C4.  A scan never leaves through [sys.exit]; when it returns its
    counters, [main] exits with status 0 if the error counter is zero and
    with status 1 otherwise, whatever the other two counters hold.  The
    findings of a Tailwind text that hold the [ERROR] marker are the one
    [purge] message when the text holds [purge:], and none otherwise.  And
    when the tree holds, outside [node_modules], a Tailwind config whose text
    holds [purge:], a run that reaches its end exits with status 1. *)
Theorem exit_status_reflects_errors (s : state) :
  match scan s with
  | Done c s1 =>
      exists s2, main s = Exited (if Nat.eqb (total_errors c) 0 then 0%Z else 1%Z) s2
  | Crashed e s1 => main s = Crashed e s1
  | Exited _ _ => False
  end
  /\ (forall c c' s1,
         total_errors c = total_errors c' ->
         exit_code (summary c s1) = exit_code (summary c' s1))
  /\ (forall content,
         filter (str_in "[ERROR]") (tailwind_findings content) =
         if str_in "purge:" content then [purge_message] else [])
  /\ (forall dirs name,
         In name tailwind_names ->
         (forall n, In (dirs ++ [name]) (fs_entries (env n))) ->
         no_node_modules (dirs ++ [name]) = true ->
         (forall n, exists content,
             fs_read (env n) (dirs ++ [name]) = ReadOk content
             /\ str_in "purge:" content = true) ->
         match main s with
         | Exited code _ => code = 1%Z
         | Crashed _ _ => True
         | Done _ _ => False
         end).
Proof.
  split; [ | split; [ | split]].
  - pose proof (scan_no_exit s) as Hscan. unfold ensures in Hscan.
    unfold main, bind.
    destruct (scan s) as [c s1 | e s1 | code s1]; [ | reflexivity | exact Hscan].
    apply summary_exits.
  - intros c c' s1 Hsame.
    destruct (summary_exits c s1) as [s2 ->]. destruct (summary_exits c' s1) as [s2' ->].
    cbn [exit_code]. now rewrite Hsame.
  - apply tailwind_findings_errors.
  - intros dirs name Hname Hthere Hclean Hpurge.
    pose proof (scan_counts_purge dirs name s Hname Hthere Hclean Hpurge) as Hscan.
    unfold ensures in Hscan. unfold main, bind.
    destruct (scan s) as [c s1 | e s1 | code s1]; [ | exact I | destruct Hscan].
    destruct (summary_exits c s1) as [s2 ->].
    destruct (Nat.eqb_spec (total_errors c) 0); [lia | reflexivity].
Qed.

(** ** Without rules *)












(** ** Two runs over an unchanged tree *)

Lemma steady_ret {A : Type} (a : A) : steady (ret a).
Proof. intros s1 s2. reflexivity. Qed.

Lemma steady_print (line : string) : steady (print line).
Proof. intros s1 s2. reflexivity. Qed.

Lemma steady_lift {A : Type} (r : result A) : steady (lift r).
Proof. intros s1 s2. destruct r; reflexivity. Qed.

Lemma steady_sys_exit {A : Type} (code : Z) : steady (@sys_exit A code).
Proof. intros s1 s2. reflexivity. Qed.

Lemma steady_bind {A B : Type} (m : prog A) (k : A -> prog B) :
  steady m -> (forall a, steady (k a)) -> steady (bind m k).
Proof.
  intros Hm Hk s1 s2. specialize (Hm s1 s2). unfold bind, same_result in *.
  destruct (m s1) as [a1 s1' | e1 s1' | c1 s1'];
    destruct (m s2) as [a2 s2' | e2 s2' | c2 s2']; try contradiction; try assumption.
  subst a2. apply Hk.
Qed.

Section Unchanged.

(** The tree and what reading gives are the same at every observation. *)
Hypothesis unchanged : forall n, env n = env 0.

Lemma steady_observe : steady observe.
Proof.
  intros s1 s2. unfold observe, same_result.
  now rewrite (unchanged (clock s1)), (unchanged (clock s2)).
Qed.

Ltac steady_step :=
  repeat lazymatch goal with
    | |- steady (bind _ _) => apply steady_bind; [ | intros ? ]
    | |- steady (ret _) => apply steady_ret
    | |- steady (print _) => apply steady_print
    | |- steady (lift _) => apply steady_lift
    | |- steady (sys_exit _) => apply steady_sys_exit
    | |- steady observe => apply steady_observe
    | |- steady (match ?x with _ => _ end) => destruct x
    end.

Lemma steady_load : steady load_framework_intelligence.
Proof. unfold load_framework_intelligence, path_exists, read_text. steady_step. Qed.

Lemma steady_find_config_files : steady find_config_files.
Proof. unfold find_config_files. steady_step. Qed.

Lemma steady_print_valid (c : counters) : steady (print_valid c).
Proof. unfold print_valid. steady_step. Qed.

Lemma steady_report_devcontainer (all_errors : list string) :
  forall c, steady (report_devcontainer all_errors c).
Proof.
  induction all_errors as [ | error rest IH]; intros c; cbn [report_devcontainer].
  - apply steady_ret.
  - destruct (str_in "[ERROR]" error); [ | destruct (str_in "[WARNING]" error)];
      steady_step; apply IH.
Qed.

Lemma steady_report_tailwind (errors : list string) :
  forall c, steady (report_tailwind errors c).
Proof.
  induction errors as [ | error rest IH]; intros c; cbn [report_tailwind].
  - apply steady_ret.
  - destruct (str_in "[ERROR]" error); steady_step; apply IH.
Qed.

Lemma steady_report_eslint (errors : list string) :
  forall c, steady (report_eslint errors c).
Proof.
  induction errors as [ | error rest IH]; intros c; cbn [report_eslint].
  - apply steady_ret.
  - destruct (str_in "[ERROR]" error); steady_step; apply IH.
Qed.

Lemma steady_devcontainer_step (intelligence : dict) (file : path) (c : counters) :
  steady (devcontainer_step intelligence file c).
Proof.
  unfold devcontainer_step, validate_json_file, read_text. steady_step;
    try apply steady_print_valid; apply steady_report_devcontainer.
Qed.

Lemma steady_tailwind_step (intelligence : dict) (file : path) (c : counters) :
  steady (tailwind_step intelligence file c).
Proof.
  unfold tailwind_step, validate_tailwind_config, read_text. steady_step;
    try apply steady_print_valid; apply steady_report_tailwind.
Qed.

Lemma steady_eslint_step (intelligence : dict) (file : path) (c : counters) :
  steady (eslint_step intelligence file c).
Proof.
  unfold eslint_step. steady_step;
    try apply steady_print_valid; apply steady_report_eslint.
Qed.

Lemma steady_section (title : string) (step : path -> counters -> prog counters) :
  (forall file c, steady (step file c)) ->
  forall files c, steady (section title step files c).
Proof.
  intros Hstep files c. unfold section.
  destruct files as [ | file rest]; [apply steady_ret | ].
  steady_step. generalize (file :: rest). clear file rest. intros files. revert c.
  induction files as [ | file rest IH]; intros c; cbn [for_each]; steady_step; auto.
Qed.

Lemma steady_scan : steady scan.
Proof.
  unfold scan, scan_files. steady_step.
  - apply steady_load.
  - apply steady_find_config_files.
  - apply steady_section. apply steady_devcontainer_step.
  - apply steady_section. apply steady_tailwind_step.
  - apply steady_section. apply steady_eslint_step.
Qed.

Lemma steady_summary (c : counters) : steady (summary c).
Proof. unfold summary. steady_step. Qed.


(** C9.  Over a tree that is the same at every observation, the scan gives
    the same three counters, or fails with the same exception, from whatever
    state it is started, and so does the whole run with its exit status: a
    second run, started when the first has ended, repeats the summary of the
    first. *)
Theorem unchanged_tree_same_summary (s1 s2 : state) :
  same_result (scan s1) (scan s2)
  /\ same_result (main s1) (main s2)
  /\ same_result (scan s1) (scan (final_state (main s1))).
Proof.
  split; [apply steady_scan | split; [ | apply steady_scan]].
  unfold main. apply steady_bind; [apply steady_scan | apply steady_summary].
Qed.

End Unchanged.

(** ** Substring search *)

Lemma prefix_iff (a b : string) :
  String.prefix a b = true <-> exists post, b = (a ++ post)%string.
Proof.
  revert b.
  induction a as [ | ch a IH]; intros b.
  - split; [intros _; now exists b | intros _; now destruct b].
  - destruct b as [ | ch' b]; cbn.
    + split; [discriminate | intros [post Hb]; discriminate].
    + destruct (ascii_dec ch ch') as [-> | Hne].
      * rewrite IH. split; intros [post Hb]; exists post; [now rewrite Hb | now injection Hb].
      * split; [discriminate | intros [post Hb]; injection Hb; congruence].
Qed.

(** [str_in] is the substring test: the needle occurs in the hay exactly
    when the hay is some text, the needle, and some text. *)
Lemma str_in_spec (needle hay : string) :
  str_in needle hay = true <->
  exists pre post, hay = (pre ++ needle ++ post)%string.
Proof.
  split.
  - induction hay as [ | ch hay IH]; cbn [str_in].
    + destruct (String.prefix needle "") eqn:Hprefix; [ | discriminate].
      intros _. apply prefix_iff in Hprefix as [post Hpost]. now exists "", post.
    + destruct (String.prefix needle (String ch hay)) eqn:Hprefix.
      * intros _. apply prefix_iff in Hprefix as [post Hpost]. now exists "", post.
      * intros Hin. destruct (IH Hin) as [pre [post Hhay]].
        exists (String ch pre), post. cbn. now rewrite Hhay.
  - intros [pre [post ->]].
    induction pre as [ | ch pre IH].
    + cbn [append].
      assert (Hprefix : String.prefix needle (needle ++ post) = true)
        by (apply prefix_iff; now exists post).
      destruct (needle ++ post)%string; cbn [str_in]; now rewrite Hprefix.
    + cbn [append str_in]. rewrite IH.
      now destruct (String.prefix needle (String ch (pre ++ needle ++ post))).
Qed.

Lemma str_in_embed (needle hay pre post : string) :
  str_in needle hay = true -> str_in needle (pre ++ hay ++ post) = true.
Proof.
  intros Hin. apply str_in_spec in Hin as [pre' [post' ->]].
  apply str_in_spec. exists (pre ++ pre')%string, (post' ++ post)%string.
  now rewrite !str_app_assoc.
Qed.

(** ** More on the matcher *)

Lemma existsb_impl {A : Type} (f g : A -> bool) (l : list A) :
  (forall a, f a = true -> g a = true) -> existsb f l = true -> existsb g l = true.
Proof.
  intros Himpl. induction l as [ | a l IH]; cbn [existsb]; [easy | ].
  intros Hex. apply orb_true_iff in Hex as [Ha | Hl]; apply orb_true_iff;
    [left; now apply Himpl | right; now apply IH].
Qed.

Lemma filter_length_le {A : Type} (f g : A -> bool) (l : list A) :
  (forall a, f a = true -> g a = true) ->
  List.length (filter f l) <= List.length (filter g l).
Proof.
  intros Himpl. induction l as [ | a l IH]; cbn [filter]; [lia | ].
  destruct (f a) eqn:Hf.
  - rewrite (Himpl a Hf). cbn [List.length]. lia.
  - destruct (g a); cbn [List.length]; lia.
Qed.

(** A rule that hits a content hits every text that holds that content. *)
Lemma rule_hits_embed (content pre post : string) (deprecated : dict) :
  rule_hits content deprecated = true ->
  rule_hits (pre ++ content ++ post) deprecated = true.
Proof.
  unfold rule_hits.
  destruct (dict_get_default "pattern" (JStr "") deprecated); try discriminate.
  intros Hhit. apply andb_prop in Hhit as [Hne Hex]. rewrite Hne. cbn [andb].
  revert Hex. apply existsb_impl. intros search. apply str_in_embed.
Qed.

(** Whether the message of a finding can be built does not depend on the
    variant that was found. *)
Lemma finding_message_any_variant (deprecated : dict) (search search' : string) :
  (exists error_msg, finding_message deprecated search = Ok error_msg) ->
  exists error_msg, finding_message deprecated search' = Ok error_msg.
Proof.
  unfold finding_message.
  destruct (dict_get_default "severity" (JStr "warning") deprecated);
    try (intros [error_msg Hmsg]; discriminate).
  destruct (dict_get "name" deprecated); [ | intros [error_msg Hmsg]; discriminate].
  intros _. eexists. reflexivity.
Qed.

Lemma match_loop_smaller_content (all_deprecated : list dict) (content pre post : string) :
  forall errors',
    (exists findings', match_loop all_deprecated (pre ++ content ++ post) errors' = Ok findings') ->
    forall errors, exists findings, match_loop all_deprecated content errors = Ok findings.
Proof.
  induction all_deprecated as [ | deprecated rest IH]; intros errors' [findings' Hbig] errors;
    cbn [match_loop] in *.
  - now exists errors.
  - destruct (negb (py_truthy (dict_get_default "pattern" (JStr "") deprecated))).
    + apply (IH errors'). now exists findings'.
    + destruct (dict_get_default "pattern" (JStr "") deprecated) as [ | | | | p | | ];
        try discriminate.
      rewrite search_loop_first_hit in *.
      destruct (find (fun search => str_in search (pre ++ content ++ post)) (search_variants p))
        as [search' | ] eqn:Hbigfind.
      * destruct (finding_message deprecated search') as [msg' | e] eqn:Hmsg';
          cbn [rbind] in Hbig; [ | discriminate].
        destruct (find (fun search => str_in search content) (search_variants p)) as [search | ].
        -- destruct (finding_message_any_variant deprecated search' search) as [msg ->];
             [now exists msg' | ].
           cbn [rbind]. apply (IH (errors' ++ [msg'])). now exists findings'.
        -- cbn [rbind]. apply (IH (errors' ++ [msg'])). now exists findings'.
      * cbn [rbind] in Hbig.
        destruct (find (fun search => str_in search content) (search_variants p))
          as [search | ] eqn:Hfind.
        -- apply find_some in Hfind as [Hin Hhit].
           apply (str_in_embed _ _ pre post) in Hhit.
           pose proof (find_none _ _ Hbigfind search Hin) as Hmiss. cbn beta in Hmiss.
           congruence.
        -- cbn [rbind]. apply (IH errors'). now exists findings'.
Qed.

(** X1.  The matcher searches for substrings, so text put before or after a
    content takes no finding away: when the matcher returns on the larger
    text, it returns on the content too, with no more findings than on the
    larger text. *)
Theorem findings_survive_embedding (content pre post : string) (file_path : path)
    (intelligence : dict) :
  match check_deprecated_patterns (pre ++ content ++ post) file_path intelligence with
  | Ok findings' =>
      exists findings,
        check_deprecated_patterns content file_path intelligence = Ok findings
        /\ List.length findings <= List.length findings'
  | Raise _ => True
  end.
Proof.
  rewrite !check_deprecated_patterns_flattened.
  destruct (flattened_rules intelligence) as [all_deprecated | e]; cbn [rbind]; [ | exact I].
  destruct (match_loop all_deprecated (pre ++ content ++ post) []) as [findings' | e]
    eqn:Hbig; [ | exact I].
  destruct (match_loop_smaller_content all_deprecated content pre post []
              (ex_intro _ findings' Hbig) []) as [findings Hsmall].
  exists findings. split; [exact Hsmall | ].
  apply match_loop_length in Hbig. apply match_loop_length in Hsmall.
  rewrite Hbig, Hsmall. cbn [List.length]. cbn [Nat.add].
  apply filter_length_le. intros deprecated. apply rule_hits_embed.
Qed.

Lemma dict_mem_set_keep (key key' : string) (v : json) (d : dict) :
  dict_mem key d = true -> dict_mem key (dict_set key' v d) = true.
Proof.
  unfold dict_mem.
  induction d as [ | [k w] rest IH]; cbn [dict_set existsb fst]; [discriminate | ].
  destruct (String.eqb k key') eqn:Hk; cbn [existsb fst]; [easy | ].
  intros Hmem. apply orb_true_iff in Hmem as [Hhere | Hrest]; apply orb_true_iff;
    [now left | right; now apply IH].
Qed.

Lemma dict_mem_update_keep (key : string) (extra d : dict) :
  dict_mem key d = true -> dict_mem key (dict_update d extra) = true.
Proof.
  unfold dict_update. revert d.
  induction extra as [ | [k w] extra IH]; intros d Hmem; cbn [fold_left fst snd]; [easy | ].
  apply IH. now apply dict_mem_set_keep.
Qed.

(** Every record the flattener builds has a name. *)
Lemma flattened_rules_named (intelligence : dict) (all_deprecated : list dict) :
  flattened_rules intelligence = Ok all_deprecated ->
  forallb (dict_mem "name") all_deprecated = true.
Proof.
  unfold flattened_rules.
  destruct (negb (py_truthy (JObj intelligence)) || negb (dict_mem "intelligence" intelligence)).
  - now intros [= <-].
  - change "" with (dotted_path []) at 2.
    rewrite extract_deprecated_collect, collect_spec.
    destruct (forallb node_ok _); [ | discriminate].
    intros [= <-]. cbn [app]. apply forallb_forall. intros record Hin.
    apply in_map_iff in Hin as [[[ancestors name] info] [<- _]].
    unfold rule_record, make_record. now apply dict_mem_update_keep.
Qed.

Lemma match_loop_exceptions (all_deprecated : list dict) (content : string) :
  forallb (dict_mem "name") all_deprecated = true ->
  forall errors,
    match match_loop all_deprecated content errors with
    | Ok _ | Raise AttributeError | Raise TypeError => True
    | Raise _ => False
    end.
Proof.
  induction all_deprecated as [ | deprecated rest IH]; cbn [forallb match_loop];
    [intros _ errors; exact I | ].
  intros Hnamed errors. apply andb_prop in Hnamed as [Hname Hrest].
  destruct (negb (py_truthy (dict_get_default "pattern" (JStr "") deprecated)));
    [now apply IH | ].
  destruct (dict_get_default "pattern" (JStr "") deprecated); try exact I.
  rewrite search_loop_first_hit.
  destruct (find _ _) as [search | ]; cbn [rbind]; [ | now apply IH].
  unfold finding_message. rewrite dict_mem_get in Hname.
  destruct (dict_get_default "severity" (JStr "warning") deprecated); try exact I.
  destruct (dict_get "name" deprecated); [ | discriminate].
  cbn [rbind]. now apply IH.
Qed.

(** X2.  The matcher fails in two ways only: with an [AttributeError] (a
    [deprecatedPatterns] value or the severity of a rule that hits is not of
    the expected type) or with a [TypeError] (a pattern that is not a
    string).  The lookup of the name of a rule never fails, since every
    record the flattener builds has one. *)
Theorem matcher_exceptions (content : string) (file_path : path) (intelligence : dict) :
  match check_deprecated_patterns content file_path intelligence with
  | Ok _ | Raise AttributeError | Raise TypeError => True
  | Raise _ => False
  end.
Proof.
  rewrite check_deprecated_patterns_flattened.
  destruct (flattened_rules intelligence) as [all_deprecated | e] eqn:Hflat; cbn [rbind].
  - apply match_loop_exceptions. now apply (flattened_rules_named intelligence).
  - unfold flattened_rules in Hflat.
    destruct (negb (py_truthy (JObj intelligence)) || negb (dict_mem "intelligence" intelligence));
      [discriminate | ].
    change "" with (dotted_path []) in Hflat at 2.
    rewrite extract_deprecated_collect, collect_spec in Hflat.
    destruct (forallb node_ok _); [discriminate | ]. now injection Hflat as <-.
Qed.

Lemma match_loop_ill_typed (all_deprecated : list dict) (content : string) :
  existsb pattern_ill_typed all_deprecated = true ->
  forall errors, exists e, match_loop all_deprecated content errors = Raise e.
Proof.
  induction all_deprecated as [ | deprecated rest IH]; cbn [existsb match_loop];
    [discriminate | ].
  intros Hbad errors. unfold pattern_ill_typed at 1 in Hbad.
  destruct (dict_get_default "pattern" (JStr "") deprecated) as [ | b | n | x | p | items | fields];
    cbn [py_truthy is_str negb andb orb] in *.
  - now apply IH.
  - destruct b; cbn [negb andb orb] in *; [now exists TypeError | now apply IH].
  - destruct (negb (Z.eqb n 0)); cbn [negb andb orb] in *; [now exists TypeError | now apply IH].
  - destruct (negb (PrimFloat.eqb x 0)); cbn [negb andb orb] in *;
      [now exists TypeError | now apply IH].
  - rewrite andb_false_r in Hbad. cbn [orb] in Hbad.
    destruct (negb (negb (String.eqb p ""))); [now apply IH | ].
    destruct (search_loop (search_variants p) content deprecated errors) as [errors' | e];
      cbn [rbind]; [now apply IH | now exists e].
  - destruct items; cbn [negb andb orb] in *; [now apply IH | now exists TypeError].
  - destruct fields; cbn [negb andb orb] in *; [now apply IH | now exists TypeError].
Qed.

(** X3.  One rule whose pattern is truthy and not a string (a number, a
    list, [true]) spoils the whole rule set: the matcher then raises on
    every content, whether or not any rule hits it. *)
Theorem ill_typed_pattern_spoils_rules (intelligence : dict) (all_deprecated : list dict)
    (Hflat : flattened_rules intelligence = Ok all_deprecated)
    (Hbad : existsb pattern_ill_typed all_deprecated = true) :
  forall content file_path,
    check_deprecated_patterns content file_path intelligence = Raise TypeError
    \/ check_deprecated_patterns content file_path intelligence = Raise AttributeError.
Proof.
  intros content file_path.
  pose proof (match_loop_exceptions all_deprecated content
                (flattened_rules_named intelligence all_deprecated Hflat) []) as Hexn.
  rewrite check_deprecated_patterns_flattened, Hflat. cbn [rbind].
  destruct (match_loop_ill_typed all_deprecated content Hbad []) as [e He].
  rewrite He in *. destruct e; try contradiction; auto.
Qed.




(** ** More on the flattener *)

Lemma dict_get_absent (key : string) (d : dict) :
  ~ In key (map fst d) -> dict_get key d = None.
Proof.
  induction d as [ | [k w] rest IH]; cbn [map fst In dict_get]; [easy | ].
  intros Habsent. destruct (String.eqb_spec k key) as [-> | Hk].
  - exfalso. apply Habsent. now left.
  - apply IH. intros Hin. apply Habsent. now right.
Qed.

Lemma dict_get_update (key : string) (extra : dict) :
  NoDup (map fst extra) ->
  forall d,
    dict_get key (dict_update d extra) =
    match dict_get key extra with
    | Some v => Some v
    | None => dict_get key d
    end.
Proof.
  unfold dict_update.
  induction extra as [ | [k w] extra IH]; intros Hkeys d; cbn [fold_left fst snd dict_get].
  - reflexivity.
  - cbn [map fst] in Hkeys. apply NoDup_cons_iff in Hkeys as [Hfresh Hkeys].
    rewrite (IH Hkeys).
    destruct (String.eqb_spec k key) as [-> | Hk].
    + rewrite (dict_get_absent key extra Hfresh). apply dict_get_set_same.
    + destruct (dict_get key extra); [reflexivity | ].
      apply dict_get_set_other. now apply String.eqb_neq.
Qed.

(** X5.  A flat rule record is the body of the rule laid over the two
    entries the flattener supplies: every key of the body reads back with
    the value the body gives it, and [name] and [category] read as the entry
    name and the path unless the body defines them. *)
Theorem record_is_body_over_name_and_category (pattern_name category_path : string)
    (pattern_info : dict) (Hkeys : NoDup (map fst pattern_info)) (key : string) :
  dict_get key (make_record pattern_name category_path pattern_info) =
  match dict_get key pattern_info with
  | Some v => Some v
  | None =>
      if String.eqb key "name" then Some (JStr pattern_name)
      else if String.eqb key "category" then Some (JStr category_path)
      else None
  end.
Proof.
  unfold make_record. rewrite (dict_get_update key pattern_info Hkeys).
  destruct (dict_get key pattern_info); [reflexivity | ].
  cbn [dict_get]. rewrite (String.eqb_sym "name"), (String.eqb_sym "category").
  reflexivity.
Qed.

Lemma dotted_path_single (key : string) : dotted_path [key] = key.
Proof.
  unfold dotted_path. cbn [drop_empty_prefix].
  destruct (String.eqb_spec key "") as [-> | Hkey]; reflexivity.
Qed.

(** X6.  The flattener only appends: started with records already
    gathered, it returns them, in order, followed by what it returns when
    started with none, and it fails exactly when it fails started with
    none. *)
Theorem flattener_only_appends (tree : json) (category_path : string) (acc : list dict) :
  extract_deprecated tree category_path acc =
  match extract_deprecated tree category_path [] with
  | Ok records => Ok (acc ++ records)
  | Raise e => Raise e
  end.
Proof.
  rewrite <- (dotted_path_single category_path).
  rewrite !extract_deprecated_collect, !collect_spec.
  destruct (forallb node_ok _); reflexivity.
Qed.

(** ** More on the structural validator *)

(** X7.  A devcontainer file whose JSON is not an object.  On [null], a
    boolean or a number the validator raises a [TypeError] at its first
    membership test.  On a string or a list the membership tests go through
    (substring, element); the validator raises a [TypeError] as soon as one
    of [name], [image], [customizations] is found, when it then indexes the
    value with that key, and otherwise returns the two missing-field
    messages. *)
Theorem structure_of_non_object (config : json) (file_path : path) (intelligence : dict) :
  match config with
  | JObj _ => True
  | JStr _ | JList _ =>
      validate_devcontainer_structure config file_path intelligence =
      if mentions "name" config || mentions "image" config || mentions "customizations" config
      then Raise TypeError
      else Ok ["Missing required field: 'name'"; "Missing required field: 'image'"]
  | _ => validate_devcontainer_structure config file_path intelligence = Raise TypeError
  end.
Proof.
  destruct config as [ | b | n | x | s | items | fields]; try reflexivity; try exact I;
    unfold validate_devcontainer_structure, check_name, check_image, check_customizations,
      mentions;
    cbn [REQUIRED_DEVCONTAINER_FIELDS required_fields_loop py_contains py_getitem rbind].
  - destruct (str_in "name" s); destruct (str_in "image" s);
      destruct (str_in "customizations" s); reflexivity.
  - repeat match goal with
           | |- context [existsb ?test items] => destruct (existsb test items)
           end;
      reflexivity.
Qed.





Lemma filter_none {A : Type} (f : A -> bool) (l : list A) :
  forallb (fun a => negb (f a)) l = true -> filter f l = [].
Proof.
  induction l as [ | a l IH]; cbn [forallb filter]; [easy | ].
  intros Hall. apply andb_prop in Hall as [Ha Hl].
  apply negb_true_iff in Ha. rewrite Ha. now apply IH.
Qed.


Lemma filter_all {A : Type} (f : A -> bool) (l : list A) :
  forallb f l = true -> filter f l = l.
Proof.
  induction l as [ | a l IH]; cbn [forallb filter]; [easy | ].
  intros Hall. apply andb_prop in Hall as [Ha Hl]. rewrite Ha. f_equal. now apply IH.
Qed.

(** The text the invalid-format message puts before the image holds no
    marker, and none can straddle the two. *)
Lemma invalid_image_message_markers (img : string) :
  str_in "[WARNING]" (invalid_image_message img) = str_in "[WARNING]" img
  /\ str_in "[ERROR]" (invalid_image_message img) = str_in "[ERROR]" img.
Proof. split; reflexivity. Qed.

Lemma structure_messages_counted (config intelligence : dict) :
  (forall img, dict_get "image" config = Some (JStr img) -> str_in "[WARNING]" img = false) ->
  forallb counted_as_error
    (missing_messages config ++ name_messages config ++ image_messages config
     ++ customizations_messages config intelligence) = true.
Proof.
  intros Himage. rewrite !forallb_app. repeat (apply andb_true_intro; split).
  - unfold missing_messages. cbn [REQUIRED_DEVCONTAINER_FIELDS filter].
    destruct (negb (dict_mem "name" config)); destruct (negb (dict_mem "image" config));
      reflexivity.
  - unfold name_messages. destruct (dict_get "name" config) as [name | ]; [ | reflexivity].
    destruct (not_nonempty_string name); reflexivity.
  - unfold image_messages.
    destruct (dict_get "image" config) as [[ | | | | img | | ] | ]; try reflexivity.
    destruct (String.eqb (strip img) ""); [reflexivity | ].
    destruct (negb (str_in ":" img) && negb (str_in "/" img)); [ | reflexivity].
    cbn [forallb]. unfold counted_as_error.
    rewrite (proj1 (invalid_image_message_markers img)), (Himage img eq_refl).
    now rewrite orb_true_r.
  - unfold customizations_messages, validate_vscode_settings.
    destruct (dict_get "customizations" config) as [[ | | | | | | cust] | ]; try reflexivity.
    destruct (dict_get "vscode" cust) as [[ | | | | | | vs] | ]; try reflexivity.
    destruct (dict_get_default "settings" (JObj []) vs) as [ | | | | | | settings];
      try reflexivity.
    destruct (dict_get "rust-analyzer.checkOnSave" settings) as [[ | [ | ] | | | | | ] | ];
      reflexivity.
Qed.

(** X9.  The structural findings of a devcontainer object are all counted
    as errors by the driver, none as a warning, as long as the image text
    itself does not hold the [WARNING] marker: the loop adds their number to
    the error counter and leaves the other two counters alone. *)
Theorem structural_findings_are_errors (config : dict) (file_path : path)
    (intelligence : dict)
    (Himage : forall img,
        dict_get "image" config = Some (JStr img) -> str_in "[WARNING]" img = false) :
  exists errors,
    validate_devcontainer_structure (JObj config) file_path intelligence = Ok errors
    /\ forall c s,
         returned (report_devcontainer errors c s) =
         Some {| total_errors := total_errors c + List.length errors;
                 total_warnings := total_warnings c;
                 total_validated := total_validated c |}.
Proof.
  eexists. split; [apply validate_devcontainer_structure_obj | ].
  intros c s.
  pose proof (structure_messages_counted config intelligence Himage) as Hcounted.
  set (errors := missing_messages config ++ name_messages config ++ image_messages config
                 ++ customizations_messages config intelligence) in *.
  pose proof (@report_devcontainer_counts no_exn errors c s) as Hreport.
  unfold ensures in Hreport.
  destruct (report_devcontainer errors c s) as [c' s' | e s' | code s']; try contradiction.
  destruct Hreport as [Herrors [Hwarnings Hvalidated]].
  change (fun error => str_in "[ERROR]" error || negb (str_in "[WARNING]" error))
    with counted_as_error in Herrors.
  rewrite (filter_all _ _ Hcounted) in Herrors.
  rewrite filter_none in Hwarnings.
  - cbn [returned List.length] in *. destruct c' as [e' w' v']. cbn in *. f_equal.
    f_equal; lia.
  - apply forallb_forall. intros error Hin.
    pose proof (proj1 (forallb_forall _ _) Hcounted error Hin) as Hone.
    unfold counted_as_error in Hone.
    destruct (str_in "[ERROR]" error); destruct (str_in "[WARNING]" error);
      try reflexivity; discriminate.
Qed.

(** ** More on the driver *)




(** X11.  A Tailwind config that can be read adds one error exactly when
    its text holds [purge:], one warning exactly when it holds both
    [module.exports] and [theme:], and is counted valid exactly when it holds
    neither. *)
Theorem tailwind_step_counts (intelligence : dict) (file : path) (c : counters) (s : state)
    (content : string) (Hread : fs_read (env (clock s)) file = ReadOk content) :
  exists c' s',
    tailwind_step intelligence file c s = Done c' s'
    /\ total_errors c' = total_errors c + (if str_in "purge:" content then 1 else 0)
    /\ total_warnings c' =
       total_warnings c
       + (if str_in "module.exports" content && str_in "theme:" content then 1 else 0)
    /\ total_validated c' =
       total_validated c
       + (if str_in "purge:" content
             || (str_in "module.exports" content && str_in "theme:" content)
          then 0 else 1).
Proof.
  unfold tailwind_step, validate_tailwind_config, read_text, bind, print, observe, ret.
  cbn [clock]. rewrite Hread. unfold tailwind_findings.
  destruct (str_in "module.exports" content && str_in "theme:" content);
    destruct (str_in "purge:" content); cbn [app orb];
    eexists; eexists; (split; [reflexivity | ]); cbn; repeat split; lia.
Qed.

(** X12.  A devcontainer file that cannot be read, or whose text is not
    JSON, costs exactly one error: the step returns with the error counter
    one higher and the other counters as they were, after one observation of
    the tree only (the file is not opened a second time, and neither the
    structural validator nor the matcher runs). *)
Theorem invalid_devcontainer_counts_one_error (intelligence : dict) (file : path)
    (c : counters) (s : state)
    (Hinvalid :
       (exists err, fs_read (env (clock s)) file = ReadFail err)
       \/ (exists text err,
              fs_read (env (clock s)) file = ReadOk text /\ json_loads text = DecodeError err)) :
  exists s',
    devcontainer_step intelligence file c s = Done (add_error c) s'
    /\ clock s' = S (clock s)
    /\ List.length (stdout s') = 2 + List.length (stdout s).
Proof.
  unfold devcontainer_step, validate_json_file, read_text, bind, print, observe, ret.
  cbn [clock stdout].
  destruct Hinvalid as [[err Hread] | [text [err [Hread Hparse]]]]; rewrite Hread;
    [ | rewrite Hparse]; cbn [negb clock stdout];
    eexists; (split; [reflexivity | ]); cbn [clock stdout];
    (split; [reflexivity | ]); rewrite !length_app; cbn [List.length]; lia.
Qed.

Lemma ensures_for_each_accounts {C : exn -> Prop} (step : path -> counters -> prog counters) :
  (forall file c s, ensures C (step file c) s (fun c' _ => accounts_for_one c c')) ->
  forall files c s,
    ensures C (for_each step files c) s (fun c' _ => accounts_for (List.length files) c c').
Proof.
  intros Hstep files.
  induction files as [ | file rest IH]; intros c s; cbn [for_each List.length].
  - apply ensures_ret. unfold accounts_for, total. lia.
  - apply ensures_bind. eapply ensures_weaken; [ | apply Hstep].
    cbn beta. intros c1 s1 Hone.
    eapply ensures_weaken; [ | apply IH].
    cbn beta. intros c' s' Hrest.
    unfold accounts_for_one, accounts_for, total in *. lia.
Qed.

Lemma report_accounts (errors : list string) (c c' : counters) (k j : nat) :
  errors <> [] ->
  total_errors c' = total_errors c + k ->
  total_warnings c' = total_warnings c + j ->
  total_validated c' = total_validated c ->
  k + j = List.length errors ->
  accounts_for_one c c'.
Proof.
  intros Hne He Hw Hv Hsum.
  assert (1 <= List.length errors) by (destruct errors; [congruence | cbn; lia]).
  unfold accounts_for_one, total. lia.
Qed.

Lemma filter_partition_length {A : Type} (f g : A -> bool) (l : list A) :
  (forall a, g a = negb (f a)) ->
  List.length (filter f l) + List.length (filter g l) = List.length l.
Proof.
  intros Hfg. induction l as [ | a l IH]; cbn [filter List.length]; [reflexivity | ].
  rewrite (Hfg a). destruct (f a); cbn [negb List.length]; lia.
Qed.

Lemma print_valid_accounts {C : exn -> Prop} (c : counters) (s : state) :
  ensures C (print_valid c) s (fun c' _ => accounts_for_one c c').
Proof.
  apply ensures_print_valid. intros _. unfold accounts_for_one, total. cbn. lia.
Qed.

Lemma report_devcontainer_accounts {C : exn -> Prop} (all_errors : list string)
    (c : counters) (s : state) :
  all_errors <> [] ->
  ensures C (report_devcontainer all_errors c) s (fun c' _ => accounts_for_one c c').
Proof.
  intros Hne. eapply ensures_weaken; [ | apply report_devcontainer_counts].
  cbn beta. intros c' _ [He [Hw Hv]].
  apply (report_accounts all_errors c c' _ _ Hne He Hw Hv).
  apply filter_partition_length. intros error.
  destruct (str_in "[ERROR]" error); destruct (str_in "[WARNING]" error); reflexivity.
Qed.

Lemma report_tailwind_accounts {C : exn -> Prop} (errors : list string)
    (c : counters) (s : state) :
  errors <> [] ->
  ensures C (report_tailwind errors c) s (fun c' _ => accounts_for_one c c').
Proof.
  intros Hne. eapply ensures_weaken; [ | apply report_tailwind_counts].
  cbn beta. intros c' _ [He [Hw Hv]].
  apply (report_accounts errors c c' _ _ Hne He Hw Hv).
  now apply filter_partition_length.
Qed.

Lemma report_eslint_accounts {C : exn -> Prop} (errors : list string)
    (c : counters) (s : state) :
  errors <> [] ->
  ensures C (report_eslint errors c) s (fun c' _ => accounts_for_one c c').
Proof.
  intros Hne. eapply ensures_weaken; [ | apply report_eslint_counts].
  cbn beta. intros c' _ [He [Hw Hv]].
  apply (report_accounts errors c c' _ _ Hne He Hw Hv).
  now apply filter_partition_length.
Qed.

Lemma devcontainer_step_accounts (intelligence : dict) (file : path) (c : counters)
    (s : state) :
  ensures any_exn (devcontainer_step intelligence file c) s
    (fun c' _ => accounts_for_one c c').
Proof.
  unfold devcontainer_step, validate_json_file, read_text. step_ensures.
  cbn [clock].
  assert (Hinvalid : accounts_for_one c (add_error c))
    by (unfold accounts_for_one, total; cbn; lia).
  destruct (fs_read (env (clock s)) file) as [text | err];
    [destruct (json_loads text) as [config | err] | ]; step_ensures;
    cbn [negb]; step_ensures; try exact Hinvalid.
  apply ensures_lift; [ | intros; exact I].
  intros structure_errors _. step_ensures.
  destruct (fs_read _ file) as [raw_content | err]; [ | apply ensures_lift; easy].
  step_ensures. apply ensures_lift; [ | intros; exact I].
  intros deprecated_errors _.
  destruct (structure_errors ++ deprecated_errors) as [ | error rest] eqn:Hall.
  - apply print_valid_accounts.
  - now apply report_devcontainer_accounts.
Qed.

Lemma tailwind_step_accounts {C : exn -> Prop} (intelligence : dict) (file : path)
    (c : counters) (s : state) :
  ensures C (tailwind_step intelligence file c) s (fun c' _ => accounts_for_one c c').
Proof.
  unfold tailwind_step, validate_tailwind_config, read_text. step_ensures.
  destruct (fs_read _ file) as [content | err]; step_ensures.
  - destruct (tailwind_findings content) as [ | error rest] eqn:Hfindings.
    + apply print_valid_accounts.
    + now apply report_tailwind_accounts.
  - now apply report_tailwind_accounts.
Qed.

Lemma eslint_step_accounts {C : exn -> Prop} (intelligence : dict) (file : path)
    (c : counters) (s : state) :
  ensures C (eslint_step intelligence file c) s (fun c' _ => accounts_for_one c c').
Proof.
  unfold eslint_step. step_ensures.
  destruct (validate_eslint_config file intelligence) as [ | error rest] eqn:Hfindings.
  - apply print_valid_accounts.
  - now apply report_eslint_accounts.
Qed.




(** ** Discovery *)

Lemma string_compare_trans (a b c : string) :
  String.compare a b = Lt -> String.compare b c = Lt -> String.compare a c = Lt.
Proof.
  intros Hab Hbc.
  apply OrderedTypeEx.String_as_OT.cmp_lt in Hab.
  apply OrderedTypeEx.String_as_OT.cmp_lt in Hbc.
  apply OrderedTypeEx.String_as_OT.cmp_lt.
  exact (OrderedTypeEx.String_as_OT.lt_trans _ _ _ Hab Hbc).
Qed.

Lemma string_compare_refl (a : string) : String.compare a a = Eq.
Proof. now apply OrderedTypeEx.String_as_OT.cmp_eq. Qed.

Lemma path_compare_refl (p : path) : path_compare p p = Eq.
Proof.
  induction p as [ | a p IH]; cbn [path_compare]; [reflexivity | ].
  now rewrite string_compare_refl.
Qed.

Lemma path_compare_antisym (p q : path) :
  path_compare p q = CompOpp (path_compare q p).
Proof.
  revert q.
  induction p as [ | a p IH]; intros [ | b q]; cbn [path_compare]; try reflexivity.
  rewrite (String.compare_antisym b a).
  destruct (String.compare a b); cbn [CompOpp]; [apply IH | reflexivity | reflexivity].
Qed.

Lemma path_lt_irrefl (p : path) : ~ path_lt p p.
Proof. unfold path_lt. now rewrite path_compare_refl. Qed.

Lemma path_lt_trans (p q r : path) : path_lt p q -> path_lt q r -> path_lt p r.
Proof.
  unfold path_lt. revert q r.
  induction p as [ | a p IH]; intros [ | b q] [ | c r]; cbn [path_compare];
    try discriminate; try reflexivity.
  destruct (String.compare a b) eqn:Hab; try discriminate;
    destruct (String.compare b c) eqn:Hbc; try discriminate; intros Hpq Hqr.
  - apply String.compare_eq_iff in Hab. subst b. rewrite Hbc. now apply (IH q r).
  - apply String.compare_eq_iff in Hab. subst b. now rewrite Hbc.
  - apply String.compare_eq_iff in Hbc. subst c. now rewrite Hab.
  - now rewrite (string_compare_trans a b c Hab Hbc).
Qed.

Lemma path_gt_lt (p q : path) : path_compare p q = Gt -> path_lt q p.
Proof.
  unfold path_lt. intros Hpq. rewrite path_compare_antisym, Hpq. reflexivity.
Qed.

Lemma insert_sorted_In_inv (x p : path) (sorted : list path) :
  In x (insert_sorted p sorted) -> x = p \/ In x sorted.
Proof.
  induction sorted as [ | q rest IH]; cbn [insert_sorted].
  - intros [<- | []]. now left.
  - destruct (path_compare p q) eqn:Hpq.
    + intros Hin. now right.
    + intros [<- | Hin]; [now left | now right].
    + intros [<- | Hin]; [right; now left | ].
      destruct (IH Hin) as [-> | Hrest]; [now left | right; now right].
Qed.

(** [sorted(set(...))] holds the paths of its argument and no other. *)
Lemma sorted_set_In_iff (x : path) (paths : list path) :
  In x (sorted_set paths) <-> In x paths.
Proof.
  split; [ | apply sorted_set_In].
  induction paths as [ | p rest IH]; cbn [sorted_set fold_right]; [easy | ].
  intros Hin. apply insert_sorted_In_inv in Hin as [-> | Hin]; [now left | right; now apply IH].
Qed.

Lemma insert_sorted_sorted (p : path) (sorted : list path) :
  StronglySorted path_lt sorted -> StronglySorted path_lt (insert_sorted p sorted).
Proof.
  induction sorted as [ | q rest IH]; cbn [insert_sorted]; intros Hsorted.
  - constructor; [constructor | constructor].
  - inversion Hsorted as [ | q' rest' Hrest Hall]; subst.
    destruct (path_compare p q) eqn:Hpq.
    + exact Hsorted.
    + constructor; [exact Hsorted | ].
      constructor; [exact Hpq | ].
      apply Forall_forall. intros x Hx.
      apply (path_lt_trans p q x Hpq). now apply (proj1 (Forall_forall _ _) Hall).
    + constructor; [now apply IH | ].
      apply Forall_forall. intros x Hx.
      apply insert_sorted_In_inv in Hx as [-> | Hx].
      * now apply path_gt_lt.
      * now apply (proj1 (Forall_forall _ _) Hall).
Qed.

Lemma sorted_set_sorted (paths : list path) : StronglySorted path_lt (sorted_set paths).
Proof.
  induction paths as [ | p rest IH]; cbn [sorted_set fold_right].
  - constructor.
  - now apply insert_sorted_sorted.
Qed.

Lemma strictly_sorted_NoDup (paths : list path) :
  StronglySorted path_lt paths -> NoDup paths.
Proof.
  induction 1 as [ | p rest Hrest IH Hall]; constructor; [ | exact IH].
  intros Hin. apply (path_lt_irrefl p). now apply (proj1 (Forall_forall _ _) Hall).
Qed.

(** Two strictly sorted lists with the same paths are the same list. *)
Lemma strictly_sorted_unique (l l' : list path) :
  StronglySorted path_lt l -> StronglySorted path_lt l' ->
  (forall x, In x l <-> In x l') -> l = l'.
Proof.
  intros Hl. revert l'.
  induction Hl as [ | p rest Hrest IH Hall]; intros l' Hl' Hsame.
  - destruct l' as [ | q rest']; [reflexivity | ].
    exfalso. apply (proj2 (Hsame q)). now left.
  - destruct Hl' as [ | q rest' Hrest' Hall'].
    + exfalso. apply (proj1 (Hsame p)). now left.
    + pose proof (proj1 (Forall_forall _ _) Hall) as Hp.
      pose proof (proj1 (Forall_forall _ _) Hall') as Hq.
      assert (Heq : p = q).
      { destruct (proj1 (Hsame p) (or_introl eq_refl)) as [Hpq | Hpq]; [now symmetry | ].
        destruct (proj2 (Hsame q) (or_introl eq_refl)) as [Hqp | Hqp]; [exact Hqp | ].
        exfalso. apply (path_lt_irrefl p).
        apply (path_lt_trans p q p); [now apply Hp | now apply Hq]. }
      subst q. f_equal. apply IH; [exact Hrest' | ].
      intros x. split; intros Hx.
      * destruct (proj1 (Hsame x) (or_intror Hx)) as [<- | Hx']; [ | exact Hx'].
        exfalso. apply (path_lt_irrefl p). now apply Hp.
      * destruct (proj2 (Hsame x) (or_intror Hx)) as [<- | Hx']; [ | exact Hx'].
        exfalso. apply (path_lt_irrefl p). now apply Hq.
Qed.

Lemma sorted_set_same_paths (l l' : list path) :
  (forall x, In x l <-> In x l') -> sorted_set l = sorted_set l'.
Proof.
  intros Hsame. apply strictly_sorted_unique; try apply sorted_set_sorted.
  intros x. rewrite !sorted_set_In_iff. apply Hsame.
Qed.


(** What [rglob] yields is an entry of the tree whose last components match
    the pattern. *)
Lemma rglob_In_iff (pattern : list segment) (entries : list path) (p : path) :
  In p (rglob pattern entries) <->
  In p entries /\ exists dirs tail, p = dirs ++ tail /\ glob_match pattern tail = true.
Proof.
  assert (Hlen : forall pat tail, glob_match pat tail = true ->
                                  List.length tail = List.length pat).
  { induction pat as [ | seg pat IH]; intros [ | a tail]; cbn [glob_match List.length];
      try easy.
    rewrite andb_true_iff. intros [_ Htail]. f_equal. now apply IH. }
  unfold rglob. rewrite filter_In. split; intros [Hin Hmatch]; (split; [exact Hin | ]).
  - exists (firstn (List.length p - List.length pattern) p),
           (skipn (List.length p - List.length pattern) p).
    split; [now rewrite firstn_skipn | exact Hmatch].
  - destruct Hmatch as [dirs [tail [-> Hmatch]]].
    rewrite length_app, (Hlen _ _ Hmatch).
    replace (List.length dirs + List.length pattern - List.length pattern)
      with (List.length dirs + 0) by lia.
    now rewrite skipn_app, Nat.add_0_r, skipn_all, Nat.sub_diag.
Qed.


Lemma find_config_files_run (s : state) :
  find_config_files s =
  Done
    {| cf_devcontainer :=
         sorted_set
           (filter no_node_modules
              (rglob [Exact ".devcontainer"; Exact "devcontainer.json"]
                 (fs_entries (env (clock s))))
            ++ filter no_node_modules
                 (rglob [Exact "devcontainer.json"] (fs_entries (env (1 + clock s))))
            ++ filter no_node_modules
                 (rglob [Exact "tools"; Exact "devcontainer"; EndsWith ".json"]
                    (fs_entries (env (2 + clock s)))));
       cf_tailwind :=
         sorted_set
           (filter no_node_modules
              (rglob [Exact "tailwind.config.js"] (fs_entries (env (3 + clock s))))
            ++ filter no_node_modules
                 (rglob [Exact "tailwind.config.ts"] (fs_entries (env (4 + clock s))))
            ++ filter no_node_modules
                 (rglob [Exact "tailwind.config.mjs"] (fs_entries (env (5 + clock s)))));
       cf_eslint :=
         sorted_set
           (glob [StartsWith ".eslintrc"] (fs_entries (env (6 + clock s)))
            ++ glob [StartsWith "eslint.config."] (fs_entries (env (7 + clock s))));
       cf_package := [];
       cf_tsconfig := [] |}
    {| clock := 8 + clock s; stdout := stdout s |}.
Proof. reflexivity. Qed.

Lemma no_node_modules_iff (p : path) :
  no_node_modules p = true <-> str_in "node_modules" (path_str p) = false.
Proof.
  unfold no_node_modules. destruct (str_in "node_modules" (path_str p)); cbn [negb]; easy.
Qed.

Lemma glob_In_iff (lit : string) (entries : list path) (p : path) :
  In p (glob [StartsWith lit] entries) <->
  In p entries /\ exists name, p = [name] /\ String.prefix lit name = true.
Proof.
  unfold glob. rewrite filter_In. split; intros [Hin Hmatch]; (split; [exact Hin | ]).
  - destruct p as [ | name [ | extra p]]; cbn [glob_match segment_match] in Hmatch;
      rewrite ?andb_false_r in Hmatch; try discriminate.
    exists name. split; [reflexivity | ]. now rewrite andb_true_r in Hmatch.
  - destruct Hmatch as [name [-> Hprefix]]. cbn [glob_match segment_match].
    now rewrite Hprefix.
Qed.




(** X17.  Discovery misses nothing it looks for.  A path that is an entry
    of the tree at each of the eight walks is returned as a devcontainer
    file when it has the shape of one and no [node_modules] in its full
    path, as a Tailwind config under the same conditions, and as an ESLint
    config when it is a child of the root with one of the two name prefixes:
    for ESLint configs the text [node_modules] is not looked for. *)
Theorem discovery_misses_no_config (s : state) (p : path)
    (Hseen : forall i, clock s <= i < 8 + clock s -> In p (fs_entries (env i))) :
  exists found s',
    find_config_files s = Done found s'
    /\ (is_devcontainer_path p -> str_in "node_modules" (path_str p) = false ->
        In p (cf_devcontainer found))
    /\ (is_tailwind_path p -> str_in "node_modules" (path_str p) = false ->
        In p (cf_tailwind found))
    /\ (is_eslint_path p -> In p (cf_eslint found)).
Proof.
  do 2 eexists. split; [apply find_config_files_run | ].
  cbn [cf_devcontainer cf_tailwind cf_eslint].
  split; [ | split].
  - intros [dirs [-> | [name [-> Hjson]]]] Hclean; apply sorted_set_In_iff;
      rewrite !in_app_iff, !filter_In, !no_node_modules_iff, !rglob_In_iff.
    + right. left. split; [ | exact Hclean]. split; [apply Hseen; lia | ].
      exists dirs, ["devcontainer.json"]. split; reflexivity.
    + right. right. split; [ | exact Hclean]. split; [apply Hseen; lia | ].
      exists dirs, ["tools"; "devcontainer"; name]. split; [reflexivity | ].
      cbn [glob_match segment_match]. now rewrite Hjson.
  - intros [dirs [name [-> Hname]]] Hclean. apply sorted_set_In_iff.
    rewrite !in_app_iff, !filter_In, !no_node_modules_iff, !rglob_In_iff.
    assert (Hshape : forall lit, name = lit ->
              exists dirs' tail, dirs ++ [name] = dirs' ++ tail
                                 /\ glob_match [Exact lit] tail = true).
    { intros lit <-. exists dirs, [name]. split; [reflexivity | ].
      cbn [glob_match segment_match]. now rewrite String.eqb_refl. }
    destruct Hname as [Hname | [Hname | [Hname | []]]]; symmetry in Hname;
      [left | right; left | right; right];
      (split; [split; [apply Hseen; lia | now apply Hshape] | exact Hclean]).
  - intros [name [-> Hprefix]]. apply sorted_set_In_iff.
    rewrite in_app_iff, !glob_In_iff.
    destruct Hprefix as [Hprefix | Hprefix]; [left | right];
      (split; [apply Hseen; lia | now exists name]).
Qed.

(** X18.  Each list discovery returns is in strictly ascending order of
    paths, compared component by component, and so holds no path twice,
    though the three devcontainer patterns overlap and a path can be yielded
    by more than one of them. *)
Theorem discovered_files_are_sorted (s : state) :
  exists found s',
    find_config_files s = Done found s'
    /\ forall files,
         In files [cf_devcontainer found; cf_tailwind found; cf_eslint found;
                   cf_package found; cf_tsconfig found] ->
         StronglySorted path_lt files /\ NoDup files.
Proof.
  do 2 eexists. split; [apply find_config_files_run | ].
  cbn [cf_devcontainer cf_tailwind cf_eslint cf_package cf_tsconfig].
  assert (Hsorted : forall paths,
             StronglySorted path_lt (sorted_set paths) /\ NoDup (sorted_set paths)).
  { intros paths. split; [ | apply strictly_sorted_NoDup]; apply sorted_set_sorted. }
  intros files [<- | [<- | [<- | [<- | [<- | []]]]]];
    try apply Hsorted; apply (Hsorted []).
Qed.



(** ** The setting [rust-analyzer.checkOnSave] *)

Lemma checkOnSave_message_inj (b b' : bool) :
  vscode_checkOnSave_message b = vscode_checkOnSave_message b' -> b = b'.
Proof.
  destruct b, b'; intros Heq; try reflexivity; vm_compute in Heq; discriminate Heq.
Qed.

Lemma plain_messages_open_otherwise (config : dict) (msg : string) :
  In msg (missing_messages config ++ name_messages config ++ image_messages config) ->
  String.prefix "[" msg = false.
Proof.
  rewrite !in_app_iff. intros [Hin | [Hin | Hin]].
  - unfold missing_messages in Hin. apply in_map_iff in Hin as [field [<- _]]. reflexivity.
  - unfold name_messages in Hin.
    destruct (dict_get "name" config) as [name | ]; [ | destruct Hin].
    destruct (not_nonempty_string name); [ | destruct Hin].
    destruct Hin as [<- | []]. reflexivity.
  - unfold image_messages in Hin.
    destruct (dict_get "image" config) as [[ | | | | img | | ] | ];
      try (destruct Hin as [<- | []]; reflexivity); [ | destruct Hin].
    destruct (String.eqb (strip img) ""); [destruct Hin as [<- | []]; reflexivity | ].
    destruct (negb (str_in ":" img) && negb (str_in "/" img)); [ | destruct Hin].
    destruct Hin as [<- | []]. reflexivity.
Qed.

(** X20.  On a devcontainer object the structural validator reports the
    deprecated boolean [rust-analyzer.checkOnSave], with the value found,
    exactly when [customizations] is an object whose [vscode] is an object
    whose [settings] (or the empty dict, when there is none) is an object in
    which that key holds that boolean.  Any other value of the setting,
    a number or a string among them, goes unreported, and so does a boolean
    anywhere else in the file. *)
Theorem checkOnSave_reported_exactly_when_boolean (config : dict) (file_path : path)
    (intelligence : dict) (b : bool) :
  exists errors,
    validate_devcontainer_structure (JObj config) file_path intelligence = Ok errors
    /\ (In (vscode_checkOnSave_message b) errors <->
        exists cust vscode settings,
          dict_get "customizations" config = Some (JObj cust)
          /\ dict_get "vscode" cust = Some (JObj vscode)
          /\ dict_get_default "settings" (JObj []) vscode = JObj settings
          /\ dict_get "rust-analyzer.checkOnSave" settings = Some (JBool b)).
Proof.
  eexists. split; [apply validate_devcontainer_structure_obj | ].
  assert (Hopen : String.prefix "[" (vscode_checkOnSave_message b) = true)
    by (destruct b; reflexivity).
  rewrite !app_assoc, in_app_iff, <- !app_assoc. split.
  - intros [Hplain | Hin].
    + apply plain_messages_open_otherwise in Hplain. congruence.
    + unfold customizations_messages in Hin.
      destruct (dict_get "customizations" config) as [[ | | | | | | cust] | ] eqn:Hcust;
        try (destruct Hin as [Heq | []]; rewrite <- Heq in Hopen; discriminate Hopen);
        [ | destruct Hin].
      destruct (dict_get "vscode" cust) as [vscode | ] eqn:Hvscode; [ | destruct Hin].
      unfold validate_vscode_settings in Hin.
      destruct vscode as [ | | | | | | vscode];
        try (destruct Hin as [Heq | []]; rewrite <- Heq in Hopen; discriminate Hopen).
      destruct (dict_get_default "settings" (JObj []) vscode) as [ | | | | | | settings] eqn:Hset;
        try (destruct Hin as [Heq | []]; rewrite <- Heq in Hopen; discriminate Hopen).
      destruct (dict_get "rust-analyzer.checkOnSave" settings) as [[ | b' | | | | | ] | ] eqn:Hkey;
        try (now destruct Hin); destruct Hin as [Heq | []].
      apply checkOnSave_message_inj in Heq. subst b'. now exists cust, vscode, settings.
  - intros [cust [vscode [settings [Hcust [Hvscode [Hset Hkey]]]]]]. right.
    unfold customizations_messages. rewrite Hcust, Hvscode.
    unfold validate_vscode_settings. rewrite Hset, Hkey. now left.
Qed.

(** ** The whole scan *)

Lemma accounts_for_trans (n m : nat) (c c1 c2 : counters) :
  accounts_for n c c1 -> accounts_for m c1 c2 -> accounts_for (n + m) c c2.
Proof. unfold accounts_for, total. lia. Qed.

Lemma ensures_section_accounts {C : exn -> Prop} (title : string)
    (step : path -> counters -> prog counters) :
  (forall file c s, ensures C (step file c) s (fun c' _ => accounts_for_one c c')) ->
  forall files c s,
    ensures C (section title step files c) s
      (fun c' _ => accounts_for (List.length files) c c').
Proof.
  intros Hstep files c s. unfold section.
  destruct files as [ | file rest].
  - apply ensures_ret. unfold accounts_for, total. cbn [List.length]. lia.
  - step_ensures. now apply ensures_for_each_accounts.
Qed.

(** X22.  The summary accounts for every file discovery returns.  When the
    scan returns, the valid counter is at most the number of files found,
    and the valid, warning and error counters together are at least that
    number: no discovered file is passed over in silence, and none is
    counted valid twice.  The files are those [find_config_files] returns at
    the clock the scan is started with. *)
Theorem every_discovered_file_is_counted (intelligence : dict) (s : state) :
  exists found,
    returned (find_config_files s) = Some found
    /\ ensures any_exn (scan_files intelligence) s
         (fun c _ =>
            accounts_for
              (List.length (cf_devcontainer found) + List.length (cf_tailwind found)
               + List.length (cf_eslint found))
              no_counts c).
Proof.
  eexists. split; [rewrite find_config_files_run; reflexivity | ].
  unfold scan_files. step_ensures.
  apply find_config_files_returns. intros found s' Hfound.
  rewrite find_config_files_run in Hfound. cbn [clock] in Hfound.
  injection Hfound as <- _.
  cbn [cf_devcontainer cf_tailwind cf_eslint].
  apply ensures_bind. eapply ensures_weaken;
    [ | apply ensures_section_accounts; intros; apply devcontainer_step_accounts].
  cbn beta. intros c1 s1 Hdevcontainer.
  apply ensures_bind. eapply ensures_weaken;
    [ | apply ensures_section_accounts; intros; apply tailwind_step_accounts].
  cbn beta. intros c2 s2 Htailwind.
  eapply ensures_weaken;
    [ | apply ensures_section_accounts; intros; apply eslint_step_accounts].
  cbn beta. intros c3 s3 Heslint.
  exact (accounts_for_trans _ _ _ _ _
           (accounts_for_trans _ _ _ _ _ Hdevcontainer Htailwind) Heslint).
Qed.

End Validator.

(** ** Discovery over two listings of a tree *)

(** X21.  Discovery depends on which entries the tree has, not on the
    order in which a walk lists them nor on an entry being listed more than
    once: over two environments that show the same entries at every
    observation, [find_config_files] returns the same lists in the same
    order. *)
Theorem discovery_ignores_listing_order (project_root : string)
    (env env' : nat -> filesystem)
    (Hsame : forall n p, In p (fs_entries (env n)) <-> In p (fs_entries (env' n)))
    (s : state) :
  find_config_files project_root env s = find_config_files project_root env' s.
Proof.
  rewrite !find_config_files_run. f_equal.
  f_equal; apply sorted_set_same_paths; intros x;
    rewrite !in_app_iff, ?filter_In, ?rglob_In_iff, ?glob_In_iff, !Hsame; reflexivity.
Qed.

(** ** Instances *)

(** C1 fails as stated: with two rules whose patterns both occur in the
    content, the matcher reports two findings for the one file. *)
Lemma two_hitting_rules_two_findings :
  exists findings,
    check_deprecated_patterns no_repr content_with_both [] two_rules = Ok findings
    /\ List.length findings = 2.
Proof.
  eexists. split.
  - vm_compute. reflexivity.
  - reflexivity.
Qed.

(** C2 fails as stated: a [deprecatedPatterns] map with two entries, one of
    them a text, is flattened to a single record. *)
Lemma text_entry_counted_but_not_flattened :
  entry_count tree_with_text_entry = 2
  /\ exists records,
       extract_deprecated tree_with_text_entry "" [] = Ok records
       /\ List.length records = 1.
Proof.
  split; [reflexivity | ].
  eexists. split.
  - vm_compute. reflexivity.
  - reflexivity.
Qed.

(** Three more shapes the flattener meets: a [deprecatedPatterns] value that
    is a text makes it raise; a rule that defines [category] itself keeps its
    own; and keys that are empty and lead the path leave no trace in it. *)
Example flattener_raises_on_text_patterns :
  extract_deprecated (JObj [("tools", JObj [("deprecatedPatterns", JStr "none yet")])]) "" [] =
  Raise AttributeError.
Proof. reflexivity. Qed.

Example own_category_overrides :
  extract_deprecated
    (JObj [("tools",
            JObj [("deprecatedPatterns",
                   JObj [("old-flag", JObj [("category", JStr "cli")])])])]) "" [] =
  Ok [[("name", JStr "old-flag"); ("category", JStr "cli")]].
Proof. reflexivity. Qed.

Example empty_leading_key_leaves_no_dot :
  extract_deprecated
    (JObj [("", JObj [("tools", JObj [("deprecatedPatterns", JObj [("old-flag", JObj [])])])])])
    "" [] =
  Ok [[("name", JStr "old-flag"); ("category", JStr "tools")]].
Proof. reflexivity. Qed.

(** The tree with the text entry and the tree without it flatten alike. *)
Lemma text_entry_never_contributes_witness :
  drops_entry tree_with_text_entry tree_without_text_entry
  /\ extract_deprecated tree_with_text_entry "" [] =
     extract_deprecated tree_without_text_entry "" [].
Proof.
  assert (Hdrop : drops_entry tree_with_text_entry tree_without_text_entry).
  { apply (drop_below [] [] "tools"); [reflexivity | ].
    apply (drop_here [] [] [] [("old-flag", JObj [("pattern", JStr "--old")])]
             "note" (JStr "just text")).
    reflexivity. }
  split; [exact Hdrop | ].
  apply (proj1 (text_entry_never_contributes no_repr _ _ Hdrop)).
Defined.


(** C3 at a Tailwind config that cannot be read: the message of the
    validator carries no marker, and the driver counts it as a warning; the
    run ends with no error counted and status 0. *)
Lemma unreadable_tailwind_counted_as_warning :
  returned (validate_tailwind_config unreadable_tailwind_env ["tailwind.config.js"] [] start) =
    Some ["Error reading Tailwind config: [Errno 13] Permission denied: 'tailwind.config.js'"]
  /\ returned (scan no_repr tiny_loads "/project" unreadable_tailwind_env start) =
     Some {| total_errors := 0; total_warnings := 1; total_validated := 0 |}
  /\ exit_code (main no_repr tiny_loads "/project" unreadable_tailwind_env start) = Some 0%Z.
Proof.
  repeat split; vm_compute; reflexivity.
Qed.

(** C7 at a devcontainer file that disappears between the two times the
    driver opens it: the second [open] raises, nothing catches it, and the
    process ends there, with no summary and no exit through [sys.exit]. *)
Lemma second_read_failure_ends_the_process :
  uncaught (main no_repr tiny_loads "/project" vanishing_env start) =
    Some (ReadError
            "[Errno 2] No such file or directory: 'devcontainer.json'")
  /\ clock (final_state (main no_repr tiny_loads "/project" vanishing_env start)) = 11.
Proof.
  split; vm_compute; reflexivity.
Qed.

(** A project with a Tailwind config that sets [purge]: the run ends with
    status 1. *)
Lemma exit_status_reflects_errors_witness :
  match main no_repr tiny_loads "/project" purge_env start with
  | Exited code _ => code = 1%Z
  | Crashed _ _ => True
  | Done _ _ => False
  end.
Proof.
  apply (proj2 (proj2 (proj2
           (exit_status_reflects_errors no_repr tiny_loads "/project" purge_env start)))
           ["web"] "tailwind.config.js").
  - left. reflexivity.
  - intros n. right. left. reflexivity.
  - reflexivity.
  - intros n. eexists. split; reflexivity.
Defined.


(** The tree of [purge_env] never changes: a run started later gives the
    counters of a run started now. *)
Lemma unchanged_tree_same_summary_witness :
  same_result
    (scan no_repr tiny_loads "/project" purge_env start)
    (scan no_repr tiny_loads "/project" purge_env {| clock := 40; stdout := ["earlier"] |}).
Proof.
  apply (proj1 (unchanged_tree_same_summary no_repr tiny_loads "/project" purge_env
                  (fun n => eq_refl) start {| clock := 40; stdout := ["earlier"] |})).
Defined.

(** A rule whose pattern is a number makes the matcher raise on any
    content. *)
Lemma ill_typed_pattern_spoils_rules_witness :
  check_deprecated_patterns no_repr "EXPOSE 8080" [] rules_with_numeric_pattern
  = Raise TypeError
  \/ check_deprecated_patterns no_repr "EXPOSE 8080" [] rules_with_numeric_pattern
     = Raise AttributeError.
Proof.
  apply (ill_typed_pattern_spoils_rules no_repr rules_with_numeric_pattern
           [[("name", JStr "old-port"); ("category", JStr ""); ("pattern", JInt 8080)]]).
  - reflexivity.
  - reflexivity.
Defined.

(** A rule body with a category of its own keeps it. *)
Lemma record_is_body_over_name_and_category_witness :
  dict_get "category"
    (make_record "old-port" "docker" [("pattern", JStr "EXPOSE"); ("category", JStr "ports")])
  = Some (JStr "ports").
Proof.
  apply (record_is_body_over_name_and_category "old-port" "docker"
           [("pattern", JStr "EXPOSE"); ("category", JStr "ports")]).
  cbn [map fst]. repeat constructor; cbn [In]; intuition discriminate.
Defined.

(** The two findings of an object with a bare image name both count as
    errors. *)
Lemma structural_findings_are_errors_witness :
  exists errors,
    validate_devcontainer_structure (JObj [("image", JStr "notanimage")])
      [".devcontainer"; "devcontainer.json"] [] = Ok errors
    /\ forall c s,
         returned (report_devcontainer errors c s) =
         Some {| total_errors := total_errors c + List.length errors;
                 total_warnings := total_warnings c;
                 total_validated := total_validated c |}.
Proof.
  apply (structural_findings_are_errors [("image", JStr "notanimage")]).
  intros img Himage. vm_compute in Himage. injection Himage as <-. reflexivity.
Defined.

(** The Tailwind config of [purge_tree] sets [purge] under
    [module.exports] and has no [theme:]: one error, nothing else. *)
Lemma tailwind_step_counts_witness :
  exists c' s',
    tailwind_step purge_env [] ["web"; "tailwind.config.js"] no_counts start = Done c' s'
    /\ total_errors c' = 1
    /\ total_warnings c' = 0
    /\ total_validated c' = 0.
Proof.
  apply (tailwind_step_counts purge_env [] ["web"; "tailwind.config.js"] no_counts start
           "module.exports = { purge: ['./src/**/*.html'] }").
  reflexivity.
Defined.

(** A devcontainer file that cannot be read is one error and two lines. *)
Lemma invalid_devcontainer_counts_one_error_witness :
  exists s',
    devcontainer_step no_repr tiny_loads unreadable_tailwind_env []
      [".devcontainer"; "devcontainer.json"] no_counts start
    = Done (add_error no_counts) s'
    /\ clock s' = 1
    /\ List.length (stdout s') = 2.
Proof.
  apply (invalid_devcontainer_counts_one_error no_repr tiny_loads unreadable_tailwind_env []
           [".devcontainer"; "devcontainer.json"] no_counts start).
  left. eexists. reflexivity.
Defined.


(** The Tailwind config of [purge_tree] is found. *)
Lemma discovery_misses_no_config_witness :
  exists found s',
    find_config_files "/project" purge_env start = Done found s'
    /\ In ["web"; "tailwind.config.js"] (cf_tailwind found).
Proof.
  destruct (discovery_misses_no_config "/project" purge_env start
              ["web"; "tailwind.config.js"])
    as [found [s' [Hfound [_ [Htailwind _]]]]].
  - intros i _. right. left. reflexivity.
  - exists found, s'. split; [exact Hfound | ]. apply Htailwind.
    + exists ["web"], "tailwind.config.js". split; [reflexivity | left; reflexivity].
    + reflexivity.
Defined.


(** The two listings of the one tree give the same files. *)
Lemma discovery_ignores_listing_order_witness :
  find_config_files "/project" purge_env start
  = find_config_files "/project" (fun _ => purge_tree_relisted) start.
Proof.
  apply (discovery_ignores_listing_order "/project" purge_env (fun _ => purge_tree_relisted)).
  intros n p. unfold purge_env, purge_tree, purge_tree_relisted. cbn [fs_entries In]. tauto.
Defined.

